(** * Payment-status reconciliation in the Mollie and SumUp adapters

    A shallow embedding of the two payment-provider classes
    [MolliePaymentProviderService] (providers/mollie/service.ts) and
    [SumUpBase] (the SumUp base provider), followed by the properties of
    their lifecycle operations and webhook handlers.

    Conventions of the embedding.
    - A JavaScript object literal or [Record<string, unknown>] is a
      [gmap string JsVal]; spread-then-override [{...a, k: v}] is
      [<[k:=v]> a].
    - An [async] method is a computation in [Eff]: it threads the state of
      the remote gateway, may end in a thrown error, and emits the list of
      client calls it issued, in order.
    - The remote gateway is an arbitrary deterministic transition system
      reached only through the client object; nothing is assumed of it
      unless a theorem says so.
    - Logger calls return normally and touch nothing else, so they are
      left out; an expression evaluated only to build a log line is kept
      whenever its evaluation can throw. *)

From stdpp Require Import gmap strings list fin_maps numbers.
From Stdlib Require Import QArith Qcanon.

Set Default Proof Using "Type".

(** ** JavaScript values *)

Module Js.

#[warnings="-register-all"] Inductive JsVal : Type :=
  | VUndefined
  | VNull
  | VBool (b : bool)
  | VNaN
  | VNum (q : Qc)
  | VStr (s : string)
  | VArr (items : list JsVal)
  | VObj (fields : gmap string JsVal)
  | VBigNumber (raw : JsVal).

(** The number literal [0]. *)
Definition zero : JsVal := VNum (Q2Qc 0).

(** ToBoolean. *)
Definition truthy (v : JsVal) : bool :=
  match v with
  | VUndefined | VNull | VNaN => false
  | VBool b => b
  | VNum q => negb (bool_decide (q = Q2Qc 0))
  | VStr s => negb (bool_decide (s = ""))
  | VArr _ | VObj _ | VBigNumber _ => true
  end.

(** [a || b]. *)
Definition or_else (a b : JsVal) : JsVal := if truthy a then a else b.

(** The classes of error values the adapters throw or receive.
    [MedusaError.Types] is kept to the members the adapters use. It has
    no member [PAYMENT_CAPTURE_ERROR]: that expression evaluates to
    [undefined], and [new MedusaError(undefined, message)] is a
    [MedusaError] whose [type] is [undefined]. *)
Inductive MedusaErrorType : Type :=
  | INVALID_DATA
  | NOT_FOUND
  | PAYMENT_AUTHORIZATION_ERROR.

Inductive ErrorClass : Type :=
  | MedusaError (type : MedusaErrorType)
  | MedusaError_of_undefined
  | TypeError
  | PlainError
  | ClientError.

Record JsError : Type := mkError { err_class : ErrorClass; message : string }.

Inductive Outcome (A : Type) : Type :=
  | Ok (a : A)
  | Throw (e : JsError).
Arguments Ok {A} a.
Arguments Throw {A} e.

(** Own-property read on an object literal; a missing key reads as
    [undefined]. *)
Definition prop (o : gmap string JsVal) (name : string) : JsVal :=
  default VUndefined (o !! name).

(** [v.name], for the property names the adapters read (none of which a
    built-in prototype defines): a [TypeError] on [undefined] and [null],
    the own property on an object, [undefined] on any other value. *)
Definition member (v : JsVal) (name : string) : Outcome JsVal :=
  match v with
  | VUndefined =>
      Throw (mkError TypeError
        ("Cannot read properties of undefined (reading '" +:+ name +:+ "')"))
  | VNull =>
      Throw (mkError TypeError
        ("Cannot read properties of null (reading '" +:+ name +:+ "')"))
  | VObj o => Ok (prop o name)
  | _ => Ok VUndefined
  end.

(** [v?.name], for the same property names. *)
Definition opt_member (v : JsVal) (name : string) : JsVal :=
  match v with
  | VObj o => prop o name
  | _ => VUndefined
  end.

(** [input.data], typed [Record<string, unknown> | undefined]. *)
Definition as_value (d : option (gmap string JsVal)) : JsVal :=
  match d with
  | Some o => VObj o
  | None => VUndefined
  end.

(** [{...d}] for such a value: spreading [undefined] adds nothing. *)
Definition spread (d : option (gmap string JsVal)) : gmap string JsVal :=
  default ∅ d.

(** The names every object literal inherits from [Object.prototype]; a
    computed read [table[key]] finds them when [key] is not an own key. *)
Definition object_prototype_members : list string :=
  [ "constructor"; "__proto__"; "hasOwnProperty"; "isPrototypeOf";
    "propertyIsEnumerable"; "toLocaleString"; "toString"; "valueOf";
    "__defineGetter__"; "__defineSetter__"; "__lookupGetter__";
    "__lookupSetter__" ].

(** The result of a computed read [table[key]] on an object literal whose
    own values have type [A]. *)
Inductive Looked (A : Type) : Type :=
  | Mapped (a : A)
  | Inherited (name : string)
  | Absent.
Arguments Mapped {A} a.
Arguments Inherited {A} name.
Arguments Absent {A}.

Definition computed_read {A : Type} (table : gmap string A) (key : string)
    : Looked A :=
  match table !! key with
  | Some a => Mapped a
  | None =>
      if bool_decide (key ∈ object_prototype_members)
      then Inherited key
      else Absent
  end.

End Js.

(** ** Effects: gateway state, thrown errors and the calls issued *)

Module Eff.
Import Js.

Section Eff.
Context {S Call : Type}.

(** A computation started in gateway state [s] ends in an outcome and a
    gateway state, and lists the client calls it issued. *)
Definition Eff (A : Type) : Type := S → Outcome A * S * list Call.

Definition ret {A} (a : A) : Eff A := λ s, (Ok a, s, []).

Definition throw {A} (e : JsError) : Eff A := λ s, (Throw e, s, []).

Definition bind {A B} (m : Eff A) (k : A → Eff B) : Eff B :=
  λ s,
    match m s with
    | (Ok a, s1, t1) =>
        match k a s1 with
        | (o, s2, t2) => (o, s2, t1 ++ t2)
        end
    | (Throw e, s1, t1) => (Throw e, s1, t1)
    end.

(** [try { m } catch (e) { h e }], and a promise's [.catch(h)]. *)
Definition try_catch {A} (m : Eff A) (h : JsError → Eff A) : Eff A :=
  λ s,
    match m s with
    | (Ok a, s1, t1) => (Ok a, s1, t1)
    | (Throw e, s1, t1) =>
        match h e s1 with
        | (o, s2, t2) => (o, s2, t1 ++ t2)
        end
    end.

(** A synchronous expression that may throw. *)
Definition lift {A} (o : Outcome A) : Eff A := λ s, (o, s, []).

(** One call on the client: [c] names it in the trace, [f] is the
    gateway's transition for it. *)
Definition request {A} (c : Call) (f : S → Outcome A * S) : Eff A :=
  λ s, let '(o, s1) := f s in (o, s1, [c]).

Definition outcome {A} (r : Outcome A * S * list Call) : Outcome A := r.1.1.
Definition final {A} (r : Outcome A * S * list Call) : S := r.1.2.
Definition issued {A} (r : Outcome A * S * list Call) : list Call := r.2.

End Eff.

Declare Scope eff_scope.
Delimit Scope eff_scope with eff.
Notation "'let*' x ':=' m 'in' k" := (bind m (λ x, k))
  (at level 10, x name, m at level 100, k at level 200) : eff_scope.
Notation "m ';;' k" := (bind m (λ _, k))
  (at level 100, k at level 200, right associativity) : eff_scope.

End Eff.

(** ** The host's vocabulary *)

Module Host.
Import Js.

(** [PaymentSessionStatus] of the host framework. *)
Inductive PaymentSessionStatus : Type :=
  | AUTHORIZED
  | CAPTURED
  | PENDING
  | REQUIRES_MORE
  | ERROR
  | CANCELED.

(** The string each member of the enum stands for at run time. *)
Definition status_value (s : PaymentSessionStatus) : string :=
  match s with
  | AUTHORIZED => "authorized"
  | CAPTURED => "captured"
  | PENDING => "pending"
  | REQUIRES_MORE => "requires_more"
  | ERROR => "error"
  | CANCELED => "canceled"
  end.

(** [PaymentActions] of the host framework. *)
Inductive PaymentActions : Type :=
  | ACT_AUTHORIZED
  | ACT_SUCCESSFUL
  | ACT_FAILED
  | ACT_REQUIRES_MORE
  | ACT_CANCELED
  | ACT_PENDING
  | ACT_NOT_SUPPORTED.

Definition action_value (a : PaymentActions) : string :=
  match a with
  | ACT_AUTHORIZED => "authorized"
  | ACT_SUCCESSFUL => "captured"
  | ACT_FAILED => "failed"
  | ACT_REQUIRES_MORE => "requires_more"
  | ACT_CANCELED => "canceled"
  | ACT_PENDING => "pending"
  | ACT_NOT_SUPPORTED => "not_supported"
  end.

(** The inputs of the lifecycle operations, kept to the fields the
    adapters read. *)
Record PaymentInput : Type := mkInput {
  in_data : option (gmap string JsVal)
}.

Record InitiatePaymentInput : Type := mkInitiate {
  init_context : JsVal;
  init_amount : JsVal;
  init_currency_code : string
}.

(** [ProviderWebhookPayload["payload"]]: [data] is the body of the
    delivery, typed [Record<string, unknown>] and whatever the body parser
    produced at run time. *)
Record WebhookPayload : Type := mkPayload {
  pl_data : JsVal
}.

Record WebhookActionResult : Type := mkWebhookResult {
  action : PaymentActions;
  wh_data : gmap string JsVal
}.

(** [input.data?.id]. *)
Definition data_id (input : PaymentInput) : JsVal :=
  opt_member (as_value (in_data input)) "id".

(** A record the gateway client resolves to (a Mollie payment, a SumUp
    checkout): [status] is typed as a string by both clients; [props]
    holds every other own property. *)
Record Remote : Type := mkRemote {
  status : string;
  props : gmap string JsVal
}.

(** The record as one object, as a spread [{...record}] sees it. *)
Definition to_object (r : Remote) : gmap string JsVal :=
  <["status" := VStr (status r)]> (props r).

(** The outputs of the lifecycle operations. *)
Record StatusOutput : Type := mkStatusOutput {
  out_status : Looked PaymentSessionStatus;
  out_data : option (gmap string JsVal)
}.

Record InitiateOutput : Type := mkInitiateOutput {
  init_id : JsVal;
  init_data : gmap string JsVal
}.

End Host.

(** ** The Mollie adapter: [MolliePaymentProviderService] *)

Module Mollie.
Import Js Eff Host.
#[local] Open Scope eff_scope.

Record Options : Type := mkOptions {
  apiKey : string;
  redirectUrl : string;
  medusaUrl : string;
  autoCapture : option bool;
  description : option string;
  debug_option : option bool
}.

(** The fields of an instance once its constructor has run; the theorems
    hold for any such fields. *)
Record Service : Type := mkService {
  options : Options;
  debug : bool;
  webhookUrl : string
}.

(** The calls the adapter issues on the Mollie client. *)
Inductive Call : Type :=
  | PaymentsCreate (params : gmap string JsVal)
  | PaymentsGet (id : JsVal)
  | PaymentsCancel (id : JsVal)
  | PaymentCapturesCreate (paymentId : JsVal).

(** The Mollie client, as a transition system over a gateway state. *)
Record Client (S : Type) : Type := mkClient {
  payments_create : gmap string JsVal → S → Outcome Remote * S;
  payments_get : JsVal → S → Outcome Remote * S;
  payments_cancel : JsVal → S → Outcome Remote * S;
  paymentCaptures_create : JsVal → S → Outcome unit * S
}.
Arguments payments_create {S} _ _ _.
Arguments payments_get {S} _ _ _.
Arguments payments_cancel {S} _ _ _.
Arguments paymentCaptures_create {S} _ _ _.

(** [PaymentStatus] of the Mollie client, as the keys of [statusMap]. *)
Definition statusMap : gmap string PaymentSessionStatus :=
  list_to_map
    [ ("open", REQUIRES_MORE);
      ("canceled", CANCELED);
      ("pending", PENDING);
      ("authorized", AUTHORIZED);
      ("expired", ERROR);
      ("failed", ERROR);
      ("paid", CAPTURED) ].

(** [statusMap[status]]. *)
Definition mapStatus (status : string) : Looked PaymentSessionStatus :=
  computed_read statusMap status.

(** [["captured", "authorized", "paid"].includes(status)]. *)
Definition includes (l : list string) (status : Looked PaymentSessionStatus)
    : bool :=
  match status with
  | Mapped s => bool_decide (status_value s ∈ l)
  | Inherited _ | Absent => false
  end.

(** [status === literal] for a mapped status. *)
Definition is_literal (status : Looked PaymentSessionStatus) (literal : string)
    : bool :=
  match status with
  | Mapped s => bool_decide (status_value s = literal)
  | Inherited _ | Absent => false
  end.

(** The webhook handler's [switch (status)]. *)
Definition action_of (status : string) : PaymentActions :=
  if decide (status = "authorized") then ACT_AUTHORIZED
  else if decide (status = "paid") then ACT_SUCCESSFUL
  else if decide (status = "expired") then ACT_FAILED
  else if decide (status = "failed") then ACT_FAILED
  else if decide (status = "canceled") then ACT_CANCELED
  else if decide (status = "pending") then ACT_PENDING
  else if decide (status = "open") then ACT_REQUIRES_MORE
  else ACT_NOT_SUPPORTED.

Section Service.
Context {S : Type}.
Variable client : Client S.
Variable self : Service.

(** What the JavaScript engine and the host's [BigNumber] class compute:
    [parseFloat(amount.toString()).toFixed(2)] for an amount that has a
    [toString], [String.toUpperCase], the text a template literal gives a
    member inherited from [Object.prototype], and [new BigNumber(v)],
    which may throw. *)
Variable format_amount : JsVal → string.
Variable toUpperCase : string → string.
Variable native_text : string → string.
Variable new_BigNumber : JsVal → Outcome JsVal.

Abbreviation Eff := (@Eff.Eff S Call).

(** [`${status}`] for a mapped status. *)
Definition render (status : Looked PaymentSessionStatus) : string :=
  match status with
  | Mapped s => status_value s
  | Inherited name => native_text name
  | Absent => "undefined"
  end.

(** [this.options.description || fallback]. *)
Definition description_or (fallback : string) : string :=
  match description (options self) with
  | Some d => if decide (d = "") then fallback else d
  | None => fallback
  end.

(** [this.options.autoCapture] as a condition. *)
Definition autoCapture_on : bool :=
  match autoCapture (options self) with
  | Some b => b
  | None => false
  end.

(** [parseFloat(amount.toString()).toFixed(2)]: the call of [toString]
    throws on [undefined] and [null]. *)
Definition amount_text (amount : JsVal) : Outcome string :=
  match amount with
  | VUndefined =>
      Throw (mkError TypeError
        "Cannot read properties of undefined (reading 'toString')")
  | VNull =>
      Throw (mkError TypeError
        "Cannot read properties of null (reading 'toString')")
  | _ => Ok (format_amount amount)
  end.

(** The create request, given the text of the amount. *)
Definition createParams (value : string) (input : InitiatePaymentInput)
    : gmap string JsVal :=
  let context := init_context input in
  let billing_address :=
    opt_member (opt_member context "customer") "billing_address" in
  list_to_map
    [ ("billingAddress", VObj (list_to_map
         [ ("streetAndNumber",
             or_else (opt_member billing_address "address_1") (VStr ""));
           ("postalCode",
             or_else (opt_member billing_address "postal_code") (VStr ""));
           ("city", or_else (opt_member billing_address "city") (VStr ""));
           ("country",
             or_else (opt_member billing_address "country_code") (VStr "")) ]));
      ("billingEmail",
        or_else (opt_member (opt_member context "customer") "email") (VStr ""));
      ("amount", VObj (list_to_map
         [ ("value", VStr value);
           ("currency", VStr (toUpperCase (init_currency_code input))) ]));
      ("description", VStr (description_or "Mollie payment created by Medusa"));
      ("captureMode", VStr (if autoCapture_on then "automatic" else "manual"));
      ("redirectUrl", VStr (redirectUrl (options self)));
      ("webhookUrl", VStr (webhookUrl self));
      ("metadata", VObj (list_to_map
         [ ("idempotency_key", opt_member context "idempotency_key") ])) ].

Definition initiatePayment (input : InitiatePaymentInput) : Eff InitiateOutput :=
  try_catch
    (let* value := lift (amount_text (init_amount input)) in
     let params := createParams value input in
     let* data :=
       try_catch
         (request (PaymentsCreate params) (payments_create client params))
         (λ error,
            throw (mkError (MedusaError INVALID_DATA) (message error))) in
     ret {| init_id := prop (to_object data) "id";
            init_data := to_object data |})
    (λ error, throw error).

Definition getPaymentStatus (input : PaymentInput) : Eff StatusOutput :=
  let paymentId := data_id input in
  try_catch
    (let* payment :=
       request (PaymentsGet paymentId) (payments_get client paymentId) in
     let mappedStatus := mapStatus (status payment) in
     ret {| out_status := mappedStatus; out_data := None |})
    (λ error, throw error).

(** Returns the [data] of the output, the fetched payment. *)
Definition retrievePayment (input : PaymentInput) : Eff Remote :=
  let paymentId := data_id input in
  try_catch
    (request (PaymentsGet paymentId) (payments_get client paymentId))
    (λ error, throw error).

(** [{ data: { id } }] as an input. *)
Definition by_id (id : JsVal) : PaymentInput :=
  mkInput (Some {[ "id" := id ]}).

Definition authorizePayment (input : PaymentInput) : Eff StatusOutput :=
  let externalId := data_id input in
  if negb (truthy externalId) then
    throw (mkError (MedusaError INVALID_DATA) "Payment ID is required")
  else
    try_catch
      (let* res := getPaymentStatus (by_id externalId) in
       let status := out_status res in
       if negb (includes ["captured"; "authorized"; "paid"] status) then
         throw (mkError (MedusaError INVALID_DATA)
                  ("Payment is not authorized: current status is "
                   +:+ render status))
       else
         ret {| out_status := status; out_data := in_data input |})
      (λ error, throw error).

(** The arguments of the debug line of [capturePayment]:
    [(input.data?.amount).currency_code] and [(input.data?.amount).value]. *)
Definition capture_log_arguments (input : PaymentInput) : Outcome unit :=
  let amount := opt_member (as_value (in_data input)) "amount" in
  match member amount "currency_code" with
  | Ok _ =>
      match member amount "value" with
      | Ok _ => Ok tt
      | Throw e => Throw e
      end
  | Throw e => Throw e
  end.

(** Returns the [data] of the output. *)
Definition capturePayment (input : PaymentInput) : Eff (gmap string JsVal) :=
  let externalId := data_id input in
  if negb (truthy externalId) then
    throw (mkError (MedusaError INVALID_DATA) "Payment ID is required")
  else
    try_catch
      (let* res := getPaymentStatus (by_id externalId) in
       let* status :=
         if is_literal (out_status res) "authorized" && negb autoCapture_on
         then
           let* _ := request (PaymentCapturesCreate externalId)
                       (paymentCaptures_create client externalId) in
           let* res2 := getPaymentStatus (by_id externalId) in
           ret (out_status res2)
         else ret (out_status res) in
       if negb (is_literal status "captured") then
         throw (mkError (MedusaError INVALID_DATA)
                  ("Payment is not captured: current status is "
                   +:+ render status))
       else
         let* _ := lift (if debug self then capture_log_arguments input
                         else Ok tt) in
         let* payment := retrievePayment (by_id externalId) in
         ret (to_object payment))
      (λ error, throw error).

(** Returns the [data] of the output. *)
Definition cancelPayment (input : PaymentInput) : Eff (gmap string JsVal) :=
  match in_data input with
  | None =>
      throw (mkError TypeError
        "Cannot destructure property 'id' of 'input.data' as it is undefined.")
  | Some data =>
      let id := prop data "id" in
      try_catch
        (let* payment := request (PaymentsGet id) (payments_get client id) in
         if decide (status payment = "expired") then
           ret {[ "id" := data_id input ]}
         else
           let* newPayment :=
             try_catch
               (let* cancelled :=
                  request (PaymentsCancel id) (payments_cancel client id) in
                ret (to_object cancelled))
               (λ error, ret {[ "data" := VObj (to_object payment) ]}) in
           ret newPayment)
        (λ error, throw error)
  end.

Definition getWebhookActionAndData (payload : WebhookPayload)
    : Eff WebhookActionResult :=
  let data := pl_data payload in
  try_catch
    (let* id := lift (member data "id") in
     let* payment :=
       try_catch
         (retrievePayment (by_id id))
         (λ e, throw (mkError (MedusaError NOT_FOUND) (message e))) in
     (* [payment] is an object, so the [!payment] guard does not fire *)
     let status := status payment in
     let session_id :=
       opt_member (prop (to_object payment) "metadata") "idempotency_key" in
     let* amount := lift (new_BigNumber (prop (to_object payment) "amount")) in
     let baseData :=
       to_object payment
       ∪ list_to_map [ ("amount", amount); ("session_id", session_id) ] in
     ret {| action := action_of status; wh_data := baseData |})
    (λ error,
       (* the log line reads [data.id] before anything else *)
       let* id := lift (member data "id") in
       let* again :=
         try_catch
           (let* payment := retrievePayment (by_id id) in
            ret (Some payment))
           (λ _, ret None) in
       match again with
       | Some payment =>
           let session_id :=
             opt_member (prop (to_object payment) "metadata") "session_id" in
           let* amount :=
             lift (new_BigNumber (prop (to_object payment) "amount")) in
           ret {| action := ACT_FAILED;
                  wh_data :=
                    to_object payment
                    ∪ list_to_map
                        [ ("session_id", session_id); ("amount", amount) ] |}
       | None => throw error
       end).

End Service.

End Mollie.

(** ** The SumUp adapter: [SumUpBase] *)

Module SumUp.
Import Js Eff Host.
#[local] Open Scope eff_scope.

(** [ProviderOptions]. *)
Record Options : Type := mkOptions {
  apiKey : string;
  merchantCode : option string;
  redirectUrl : string;
  medusaUrl : string;
  autoCapture : option bool;
  description : option string;
  debug_option : option bool;
  environment : option string
}.

(** The fields of an instance once its constructor has run. *)
Record Service : Type := mkService {
  options_ : Options;
  debug_ : bool
}.

(** The calls the adapter issues on [SumUpClient]. *)
Inductive Call : Type :=
  | GetMerchant
  | CreateCheckout (params : gmap string JsVal)
  | GetCheckout (checkoutId : JsVal)
  | DeactivateCheckout (checkoutId : JsVal).

(** [SumUpClient], as a transition system over a gateway state. *)
Record Client (S : Type) : Type := mkClient {
  getMerchant : S → Outcome JsVal * S;
  createCheckout : gmap string JsVal → S → Outcome Remote * S;
  getCheckout : JsVal → S → Outcome Remote * S;
  deactivateCheckout : JsVal → S → Outcome Remote * S
}.
Arguments getMerchant {S} _ _.
Arguments createCheckout {S} _ _ _.
Arguments getCheckout {S} _ _ _.
Arguments deactivateCheckout {S} _ _ _.

Definition statusMap : gmap string PaymentSessionStatus :=
  list_to_map
    [ ("PENDING", PENDING);
      ("FAILED", ERROR);
      ("PAID", AUTHORIZED) ].

(** [statusMap[status] || PaymentSessionStatus.PENDING]: every own value
    and every inherited member is truthy. *)
Definition mapStatus (status : string) : Looked PaymentSessionStatus :=
  match computed_read statusMap status with
  | Mapped s => Mapped s
  | Inherited name => Inherited name
  | Absent => Mapped PENDING
  end.

(** The webhook handler's [switch (data.event_type)]. *)
Definition event_action (event_type : JsVal) : PaymentActions :=
  match event_type with
  | VStr e =>
      if bool_decide (e ∈ ["transaction_successful"; "payment_captured";
                           "checkout_paid"])
      then ACT_SUCCESSFUL
      else if bool_decide (e ∈ ["transaction_failed"; "payment_failed";
                                "checkout_failed"])
      then ACT_FAILED
      else if bool_decide (e ∈ ["transaction_cancelled"; "payment_cancelled";
                                "checkout_cancelled"; "checkout_expired"])
      then ACT_CANCELED
      else ACT_NOT_SUPPORTED
  | _ => ACT_NOT_SUPPORTED
  end.

Section Service.
Context {S : Type}.
Variable client : Client S.
Variable self : Service.

(** The host's [BigNumber] class: [new BigNumber(v)], which may throw.
    An instance has the members [numeric], [raw], [bigNumber], [toJSON]
    and [valueOf]; it has no [toNumber]. *)
Variable new_BigNumber : JsVal → Outcome JsVal.

Abbreviation Eff := (@Eff.Eff S Call).

(** [new BigNumber(amount).toNumber()]: once the constructor has returned,
    the call of the method the instance does not have throws. The result
    type is kept as the callers use it. *)
Definition getAmountAsNumber (amount : JsVal) : Outcome JsVal :=
  match new_BigNumber amount with
  | Ok big =>
      Throw (mkError TypeError
        "(intermediate value).toNumber is not a function")
  | Throw e => Throw e
  end.

(** [this.options_.description || fallback]. *)
Definition description_or (fallback : string) : string :=
  match description (options_ self) with
  | Some d => if decide (d = "") then fallback else d
  | None => fallback
  end.

(** [this.options_.merchantCode] as a value. *)
Definition configured_merchantCode : JsVal :=
  match merchantCode (options_ self) with
  | Some c => VStr c
  | None => VUndefined
  end.

Definition createParams (amount : JsVal) (currency_code : string)
    (checkoutReference : string) (merchant_code : JsVal)
    : gmap string JsVal :=
  list_to_map
    [ ("amount", amount);
      ("currency", VStr currency_code);
      ("checkout_reference", VStr checkoutReference);
      ("description", VStr (description_or "Payment via Medusa"));
      ("merchant_code", merchant_code);
      ("redirect_url", VStr (redirectUrl (options_ self)));
      ("return_url", VStr (redirectUrl (options_ self))) ].

(** [now] and [random] are the texts of [Date.now()] and of
    [Math.random().toString(36).substr(2, 9)] at the call. *)
Definition initiatePayment (now random : string)
    (input : InitiatePaymentInput) : Eff InitiateOutput :=
  try_catch
    (let* amount := lift (getAmountAsNumber (init_amount input)) in
     let checkoutReference := "medusa_" +:+ now +:+ "_" +:+ random in
     let* merchant_code :=
       if negb (truthy configured_merchantCode) then
         try_catch
           (let* merchant := request GetMerchant (getMerchant client) in
            let* code := lift (member merchant "merchant_code") in
            if negb (truthy code) then
              throw (mkError PlainError
                       "Merchant code not found in API response")
            else ret code)
           (λ error,
              throw (mkError (MedusaError PAYMENT_AUTHORIZATION_ERROR)
                       "Failed to get merchant information from SumUp"))
       else ret configured_merchantCode in
     let params :=
       createParams amount (init_currency_code input) checkoutReference
         merchant_code in
     let* checkout :=
       request (CreateCheckout params) (createCheckout client params) in
     let fetched := to_object checkout in
     ret {| init_id := VUndefined;
            init_data :=
              list_to_map
                [ ("id", prop fetched "id");
                  ("checkout_reference", prop fetched "checkout_reference");
                  ("amount", prop fetched "amount");
                  ("currency", prop fetched "currency");
                  ("status", VStr (status checkout));
                  ("merchant_code", prop fetched "merchant_code") ] |})
    (λ error, throw error).

(** [{...input.data, status: checkout.status}]. *)
Definition with_status (input : PaymentInput) (checkout : Remote)
    : gmap string JsVal :=
  <["status" := VStr (status checkout)]> (spread (in_data input)).

(** [{...input.data, status: checkout.status,
      transactions: checkout.transactions}]. *)
Definition with_status_and_transactions (input : PaymentInput)
    (checkout : Remote) : gmap string JsVal :=
  <["transactions" := prop (to_object checkout) "transactions"]>
    (with_status input checkout).

Definition authorizePayment (input : PaymentInput) : Eff StatusOutput :=
  try_catch
    (let checkoutId := data_id input in
     if negb (truthy checkoutId) then
       throw (mkError (MedusaError INVALID_DATA)
                "Checkout ID is required for authorization")
     else
       let* checkout :=
         request (GetCheckout checkoutId) (getCheckout client checkoutId) in
       if decide (status checkout = "PAID") then
         ret {| out_status := Mapped AUTHORIZED;
                out_data := Some (with_status_and_transactions input checkout) |}
       else if decide (status checkout = "FAILED") then
         ret {| out_status := Mapped ERROR;
                out_data := Some (with_status input checkout) |}
       else
         ret {| out_status := Mapped PENDING;
                out_data := Some (with_status input checkout) |})
    (λ error, throw error).

(** Returns the [data] of the output. *)
Definition capturePayment (input : PaymentInput) : Eff (gmap string JsVal) :=
  try_catch
    (let checkoutId := data_id input in
     if negb (truthy checkoutId) then
       throw (mkError (MedusaError INVALID_DATA)
                "Checkout ID is required for capture")
     else
       let* checkout :=
         request (GetCheckout checkoutId) (getCheckout client checkoutId) in
       if negb (bool_decide (status checkout = "PAID")) then
         throw (mkError MedusaError_of_undefined
                  ("Cannot capture payment with status: "
                   +:+ status checkout))
       else ret (with_status_and_transactions input checkout))
    (λ error, throw error).

(** Returns the [data] of the output. *)
Definition cancelPayment (input : PaymentInput) : Eff (gmap string JsVal) :=
  try_catch
    (let checkoutId := data_id input in
     let* _ :=
       if truthy checkoutId then
         try_catch
           (let* _ := request (DeactivateCheckout checkoutId)
                        (deactivateCheckout client checkoutId) in
            ret tt)
           (λ error, ret tt)
       else ret tt in
     ret (<["status" := VStr "CANCELLED"]> (spread (in_data input))))
    (λ error, throw error).

Definition getPaymentStatus (input : PaymentInput) : Eff StatusOutput :=
  try_catch
    (let checkoutId := data_id input in
     if negb (truthy checkoutId) then
       ret {| out_status := Mapped ERROR; out_data := None |}
     else
       let* checkout :=
         request (GetCheckout checkoutId) (getCheckout client checkoutId) in
       let mappedStatus := mapStatus (status checkout) in
       ret {| out_status := mappedStatus;
              out_data := Some (with_status_and_transactions input checkout) |})
    (λ error, ret {| out_status := Mapped ERROR; out_data := None |}).

(** The [data] every branch of the webhook handler's [switch] builds:
    [session_id: resource.checkout_reference || resource.id || ""] and
    [amount: new BigNumber(resource.amount || 0)]. *)
Definition webhook_fields (data : JsVal) : Eff (gmap string JsVal) :=
  let* resource := lift (member data "resource") in
  let* reference := lift (member resource "checkout_reference") in
  let* session_id :=
    if truthy reference then ret reference
    else
      let* id := lift (member resource "id") in
      ret (or_else id (VStr "")) in
  let* raw := lift (member resource "amount") in
  let* amount := lift (new_BigNumber (or_else raw zero)) in
  ret (list_to_map [ ("session_id", session_id); ("amount", amount) ]).

(** The [try] block of the webhook handler. *)
Definition webhook_try (payload : WebhookPayload) : Eff WebhookActionResult :=
  let data := pl_data payload in
  let* event_type := lift (member data "event_type") in
  let chosen := event_action event_type in
  let* fields := webhook_fields data in
  ret {| action := chosen; wh_data := fields |}.

Definition getWebhookActionAndData (payload : WebhookPayload)
    : Eff WebhookActionResult :=
  try_catch
    (webhook_try payload)
    (λ error,
       let* amount := lift (new_BigNumber zero) in
       ret {| action := ACT_FAILED;
              wh_data :=
                list_to_map [ ("session_id", VStr ""); ("amount", amount) ] |}).

End Service.

End SumUp.

(** ** Observations on traces, tables and options *)

Module Obs.
Import Js Eff Host.

(** The keys of the two status tables. *)
Definition mollie_statuses : list string :=
  [ "open"; "canceled"; "pending"; "authorized"; "expired"; "failed"; "paid" ].

Definition sumup_statuses : list string := [ "PENDING"; "FAILED"; "PAID" ].

(** The requests of the create calls in a trace of the Mollie adapter. *)
Definition mollie_created (calls : list Mollie.Call)
    : list (gmap string JsVal) :=
  omap (λ c, match c with
             | Mollie.PaymentsCreate params => Some params
             | _ => None
             end) calls.

(** The capture requests in a trace. *)
Definition mollie_capture_requests (calls : list Mollie.Call) : list JsVal :=
  omap (λ c, match c with
             | Mollie.PaymentCapturesCreate id => Some id
             | _ => None
             end) calls.

(** A gateway whose successful reads are repeatable: reading the same id
    again, with no other call in between, resolves to the same record and
    leaves the gateway as it is. *)
Definition repeatable_reads {S} (get : JsVal → S → Outcome Remote * S)
    : Prop :=
  ∀ id s p s1, get id s = (Ok p, s1) → get id s1 = (Ok p, s1).

(** The tail of Mollie's [capturePayment] once the status is known: the
    check of the status, the debug line, the final fetch. [pre] is the
    trace so far. *)
Definition capture_finish {S} (client : Mollie.Client S)
    (self : Mollie.Service) (native_text : string → string)
    (input : PaymentInput) (pre : list Mollie.Call)
    (st : Looked PaymentSessionStatus) (u : S)
    : Outcome (gmap string JsVal) * S * list Mollie.Call :=
  let id := data_id input in
  if Mollie.is_literal st "captured" then
    match (if Mollie.debug self then Mollie.capture_log_arguments input
           else Ok tt) with
    | Throw e => (Throw e, u, pre)
    | Ok _ =>
        match Mollie.payments_get client id u with
        | (Ok p, u1) => (Ok (to_object p), u1, pre ++ [Mollie.PaymentsGet id])
        | (Throw e, u1) => (Throw e, u1, pre ++ [Mollie.PaymentsGet id])
        end
    end
  else
    (Throw (mkError (MedusaError INVALID_DATA)
              ("Payment is not captured: current status is "
               +:+ Mollie.render native_text st)), u, pre).

End Obs.

(** ** Concrete gateways and engine functions, for closed instances *)

Module Demo.
Import Js Eff Host.

Definition not_found : JsError := mkError ClientError "Not Found".

(** A Mollie gateway holding at most one payment: reads return it, a
    capture turns an authorized payment into a paid one, a cancel succeeds
    on an open payment only, a create stores an open payment. *)
Definition mollie : Mollie.Client (option Remote) :=
  {| Mollie.payments_create := λ params s,
       let p := mkRemote "open" (<["id" := VStr "tr_1"]> params) in
       (Ok p, Some p);
     Mollie.payments_get := λ id s,
       match s with
       | Some p => (Ok p, s)
       | None => (Throw not_found, s)
       end;
     Mollie.payments_cancel := λ id s,
       match s with
       | Some p =>
           if decide (status p = "open")
           then let p' := mkRemote "canceled" (props p) in (Ok p', Some p')
           else (Throw (mkError ClientError
                          "The payment cannot be canceled"), s)
       | None => (Throw not_found, s)
       end;
     Mollie.paymentCaptures_create := λ id s,
       match s with
       | Some p =>
           if decide (status p = "authorized")
           then (Ok tt, Some (mkRemote "paid" (props p)))
           else (Throw (mkError ClientError
                          "The payment cannot be captured"), s)
       | None => (Throw not_found, s)
       end |}.

(** A SumUp gateway holding at most one checkout. *)
Definition sumup : SumUp.Client (option Remote) :=
  {| SumUp.getMerchant := λ s,
       (Ok (VObj {[ "merchant_code" := VStr "MC123456" ]}), s);
     SumUp.createCheckout := λ params s,
       let c := mkRemote "PENDING" (<["id" := VStr "co_1"]> params) in
       (Ok c, Some c);
     SumUp.getCheckout := λ id s,
       match s with
       | Some c => (Ok c, s)
       | None => (Throw not_found, s)
       end;
     SumUp.deactivateCheckout := λ id s,
       match s with
       | Some c =>
           if decide (status c = "PENDING")
           then let c' := mkRemote "EXPIRED" (props c) in (Ok c', Some c')
           else (Throw (mkError ClientError
                          "The checkout was already processed"), s)
       | None => (Throw not_found, s)
       end |}.

(** A [BigNumber] constructor that takes numbers, strings and objects
    carrying a [value], and throws on anything else. *)
Definition new_BigNumber (v : JsVal) : Outcome JsVal :=
  match v with
  | VNum _ | VStr _ | VBigNumber _ => Ok (VBigNumber v)
  | VObj o =>
      if decide (is_Some (o !! "value")) then Ok (VBigNumber v)
      else Throw (mkError PlainError "Invalid BigNumber value")
  | _ => Throw (mkError PlainError "Invalid BigNumber value")
  end.

Definition native_text (name : string) : string :=
  "function " +:+ name +:+ "() { [native code] }".

Definition format_amount (amount : JsVal) : string := "10.00".

Definition toUpperCase (text : string) : string :=
  if decide (text = "eur") then "EUR" else text.

Definition mollie_options (auto : option bool) : Mollie.Options :=
  {| Mollie.apiKey := "test_key";
     Mollie.redirectUrl := "https://shop.example/done";
     Mollie.medusaUrl := "https://api.example";
     Mollie.autoCapture := auto;
     Mollie.description := None;
     Mollie.debug_option := None |}.

Definition mollie_service (auto : option bool) : Mollie.Service :=
  {| Mollie.options := mollie_options auto;
     Mollie.debug := false;
     Mollie.webhookUrl := "https://api.example/hooks/payment/mollie_mollie" |}.

(** The same service with [debug: true] in its options. *)
Definition mollie_debug_service (auto : option bool) : Mollie.Service :=
  {| Mollie.options :=
       {| Mollie.apiKey := "test_key";
          Mollie.redirectUrl := "https://shop.example/done";
          Mollie.medusaUrl := "https://api.example";
          Mollie.autoCapture := auto;
          Mollie.description := None;
          Mollie.debug_option := Some true |};
     Mollie.debug := true;
     Mollie.webhookUrl := "https://api.example/hooks/payment/mollie_mollie" |}.

Definition sumup_options (auto : option bool) : SumUp.Options :=
  {| SumUp.apiKey := "sup_sk_test";
     SumUp.merchantCode := Some "MC123456";
     SumUp.redirectUrl := "https://shop.example/done";
     SumUp.medusaUrl := "https://api.example";
     SumUp.autoCapture := auto;
     SumUp.description := None;
     SumUp.debug_option := None;
     SumUp.environment := None |}.

Definition sumup_service (auto : option bool) : SumUp.Service :=
  {| SumUp.options_ := sumup_options auto; SumUp.debug_ := false |}.

(** A payment or checkout with a status, an id, an amount and the
    metadata of a session. *)
Definition payment (st : string) : Remote :=
  mkRemote st
    (list_to_map
       [ ("id", VStr "tr_1");
         ("amount", VObj (list_to_map
            [ ("value", VStr "10.00"); ("currency", VStr "EUR") ]));
         ("metadata", VObj {[ "idempotency_key" := VStr "abc" ]}) ]).

Definition checkout (st : string) : Remote :=
  mkRemote st
    (list_to_map
       [ ("id", VStr "co_1");
         ("checkout_reference", VStr "medusa_1_x");
         ("amount", VNum (Q2Qc 10)) ]).

Definition input_for (id : string) : PaymentInput :=
  mkInput (Some {[ "id" := VStr id ]}).

End Demo.

(** ** More of the host's vocabulary *)

Module HostRest.
Import Js Host.

(** [RefundPaymentInput]: the stored data and the amount to refund. *)
Record RefundPaymentInput : Type := mkRefund {
  refund_data : option (gmap string JsVal);
  refund_amount : JsVal
}.

(** [UpdatePaymentInput]. *)
Record UpdatePaymentInput : Type := mkUpdate {
  update_data : option (gmap string JsVal);
  update_amount : JsVal;
  update_currency_code : string
}.

(** [v === literal] for a string literal. *)
Definition is_string (v : JsVal) (literal : string) : bool :=
  match v with
  | VStr s => bool_decide (s = literal)
  | _ => false
  end.

End HostRest.

(** ** The rest of the Mollie adapter *)

Module MollieRest.
Import Js Eff Host HostRest.
#[local] Open Scope eff_scope.

(** [static validateOptions(options: Record<string, unknown>)]. *)
Definition validateOptions (options : gmap string JsVal) : Outcome unit :=
  if negb (truthy (prop options "apiKey"))
     || negb (truthy (prop options "redirectUrl"))
     || negb (truthy (prop options "medusaUrl"))
  then
    Throw (mkError (MedusaError INVALID_DATA)
      "API key, redirect URL, and Medusa URL are required in the provider's options.")
  else Ok tt.

(** [static readonly identifier]. *)
Definition identifier : string := "mollie".

(** [url.endsWith("/")]. *)
Fixpoint endsWith_slash (url : string) : bool :=
  match url with
  | EmptyString => false
  | String c EmptyString => bool_decide (String c EmptyString = "/")
  | String _ rest => endsWith_slash rest
  end.

(** [url.slice(0, -1)]. *)
Fixpoint slice_off_last (url : string) : string :=
  match url with
  | EmptyString => EmptyString
  | String _ EmptyString => EmptyString
  | String c rest => String c (slice_off_last rest)
  end.

(** The constructor's [this.webhookUrl]. *)
Definition webhookUrl_of (medusaUrl : string) : string :=
  (if endsWith_slash medusaUrl then slice_off_last medusaUrl else medusaUrl)
  +:+ "/hooks/payment/" +:+ identifier +:+ "_" +:+ identifier.

(** The constructor's [this.debug]; [node_env] is
    [process.env.NODE_ENV]. *)
Definition debug_of (node_env : option string) (options : Mollie.Options)
    : bool :=
  default false (Mollie.debug_option options)
  || bool_decide (node_env = Some "development")
  || bool_decide (node_env = Some "test")
  || false.

(** The constructor's [this.medusaUrl]. *)
Definition medusaUrl_of (options : Mollie.Options) : string :=
  if decide (Mollie.medusaUrl options = "") then "http://localhost:9000"
  else Mollie.medusaUrl options.

(** The fields the constructor assigns; the client it creates is the
    [client] argument of the operations. *)
Definition constructor (node_env : option string) (options : Mollie.Options)
    : Mollie.Service :=
  {| Mollie.options := options;
     Mollie.debug := debug_of node_env options;
     Mollie.webhookUrl := webhookUrl_of (Mollie.medusaUrl options) |}.

(** The calls of the whole adapter: those of [Mollie.Call] and the two
    the refund and update operations add. *)
Inductive Call : Type :=
  | Base (c : Mollie.Call)
  | PaymentRefundsCreate (params : gmap string JsVal)
  | PaymentsUpdate (id : JsVal) (fields : gmap string JsVal).

Record Client (S : Type) : Type := mkClient {
  base : Mollie.Client S;
  paymentRefunds_create : gmap string JsVal → S
                          → Outcome (gmap string JsVal) * S;
  payments_update : JsVal → gmap string JsVal → S → Outcome Remote * S
}.
Arguments base {S} _.
Arguments paymentRefunds_create {S} _ _ _.
Arguments payments_update {S} _ _ _ _.

Section Service.
Context {S : Type}.
Variable client : Client S.
Variable format_amount : JsVal → string.
Variable toUpperCase : string → string.

Abbreviation Eff := (@Eff.Eff S Call).

(** An operation of the base adapter, run among the calls of the whole
    adapter. *)
Definition embed {A} (m : @Eff.Eff S Mollie.Call A) : Eff A :=
  λ s, match m s with (o, s1, t) => (o, s1, Base <$> t) end.

(** [currency.toUpperCase()] for a value that passed [!currency]. *)
Definition upper (currency : JsVal) : Outcome string :=
  match currency with
  | VStr c => Ok (toUpperCase c)
  | _ => Throw (mkError TypeError "currency.toUpperCase is not a function")
  end.

(** Returns the [data] of the output, the refund spread into an object. *)
Definition refundPayment (input : RefundPaymentInput)
    : Eff (gmap string JsVal) :=
  let externalId := opt_member (as_value (refund_data input)) "id" in
  if negb (truthy externalId) then
    throw (mkError (MedusaError INVALID_DATA) "Payment ID is required")
  else
    try_catch
      (let* payment :=
         embed (Mollie.retrievePayment (base client)
                  (Mollie.by_id externalId)) in
       let* value :=
         lift (member (opt_member (as_value (refund_data input)) "amount")
                 "value") in
       let currency :=
         opt_member (prop (to_object payment) "amount") "currency" in
       if negb (truthy currency) then
         throw (mkError (MedusaError INVALID_DATA)
                  "Currency information is missing from payment data")
       else
         let* text := lift (Mollie.amount_text format_amount value) in
         let* code := lift (upper currency) in
         let params : gmap string JsVal :=
           list_to_map
             [ ("paymentId", externalId);
               ("amount", VObj (list_to_map
                  [ ("value", VStr text); ("currency", VStr code) ])) ] in
         let* refund :=
           request (PaymentRefundsCreate params)
             (paymentRefunds_create client params) in
         ret refund)
      (λ error, throw error).

(** [deletePayment] hands its input to [cancelPayment]. *)
Definition deletePayment (input : PaymentInput) : Eff (gmap string JsVal) :=
  embed (Mollie.cancelPayment (base client) input).

(** Returns the [data] of the output. *)
Definition updatePayment (input : PaymentInput) : Eff Remote :=
  match in_data input with
  | None =>
      throw (mkError TypeError
        "Cannot destructure property 'id' of 'input.data' as it is undefined.")
  | Some data =>
      let id := prop data "id" in
      let rest := delete "id" data in
      try_catch
        (request (PaymentsUpdate id rest) (payments_update client id rest))
        (λ error, throw error)
  end.

End Service.

End MollieRest.

(** ** The rest of the SumUp adapter *)

Module SumUpRest.
Import Js Eff Host HostRest.
#[local] Open Scope eff_scope.

(** [static validateOptions(options)], on the options object as given. *)
Definition validateOptions (options : gmap string JsVal) : Outcome unit :=
  if negb (truthy (prop options "apiKey")) then
    Throw (mkError (MedusaError INVALID_DATA)
             "API key is required in the provider's options.")
  else if negb (truthy (prop options "redirectUrl")) then
    Throw (mkError (MedusaError INVALID_DATA)
             "Redirect URL is required in the provider's options.")
  else if negb (truthy (prop options "medusaUrl")) then
    Throw (mkError (MedusaError INVALID_DATA)
             "Medusa URL is required in the provider's options.")
  else Ok tt.

(** The calls of the whole adapter: those of [SumUp.Call] and the refund
    of a transaction. *)
Inductive Call : Type :=
  | Base (c : SumUp.Call)
  | RefundTransaction (transactionId : JsVal) (refundData : JsVal).

Record Client (S : Type) : Type := mkClient {
  base : SumUp.Client S;
  refundTransaction : JsVal → JsVal → S → Outcome unit * S
}.
Arguments base {S} _.
Arguments refundTransaction {S} _ _ _ _.

(** [!transactions.length] negated: whether [transactions.length] is
    truthy, for a truthy [transactions]. *)
Definition has_length (transactions : JsVal) : bool :=
  match transactions with
  | VArr [] => false
  | VArr (_ :: _) => true
  | VStr s => negb (bool_decide (s = ""))
  | VObj o => truthy (prop o "length")
  | _ => false
  end.

(** [items.find((t) => t.status === "SUCCESSFUL")]; [undefined] when no
    element passes. *)
Fixpoint find_successful (items : list JsVal) : Outcome JsVal :=
  match items with
  | [] => Ok VUndefined
  | t :: rest =>
      match member t "status" with
      | Throw e => Throw e
      | Ok st =>
          if is_string st "SUCCESSFUL" then Ok t else find_successful rest
      end
  end.

(** [transactions.find(...)]: only an array has a [find] to call. *)
Definition find_in (transactions : JsVal) : Outcome JsVal :=
  match transactions with
  | VArr items => find_successful items
  | _ => Throw (mkError TypeError "transactions.find is not a function")
  end.

Section Service.
Context {S : Type}.
Variable client : Client S.
Variable new_BigNumber : JsVal → Outcome JsVal.

Abbreviation Eff := (@Eff.Eff S Call).
Abbreviation BaseEff := (@Eff.Eff S SumUp.Call).

(** Returns the [data] of the output. *)
Definition refundPayment (input : RefundPaymentInput)
    : Eff (gmap string JsVal) :=
  try_catch
    (let transactions :=
       or_else (opt_member (as_value (refund_data input)) "transactions")
         (VArr []) in
     let* refundAmount :=
       lift (SumUp.getAmountAsNumber new_BigNumber (refund_amount input)) in
     if negb (has_length transactions) then
       throw (mkError (MedusaError INVALID_DATA)
                "No transactions found for refund")
     else
       let* transaction := lift (find_in transactions) in
       if negb (truthy transaction) then
         throw (mkError (MedusaError INVALID_DATA)
                  "No successful transaction found for refund")
       else
         let refundData :=
           if truthy refundAmount
           then VObj {[ "amount" := refundAmount ]}
           else VUndefined in
         let* transactionId := lift (member transaction "id") in
         let* _ :=
           request (RefundTransaction transactionId refundData)
             (refundTransaction client transactionId refundData) in
         ret (<["refunded_amount" := refundAmount]>
                (spread (refund_data input))))
    (λ error, throw error).

(** Returns the [data] of the output, which is [input.data] itself. *)
Definition deletePayment (input : PaymentInput)
    : BaseEff (option (gmap string JsVal)) :=
  try_catch (ret (in_data input)) (λ error, ret (in_data input)).

(** Returns the [data] of the output. *)
Definition retrievePayment (input : PaymentInput)
    : BaseEff (option (gmap string JsVal)) :=
  try_catch
    (let checkoutId := data_id input in
     if negb (truthy checkoutId) then ret (in_data input)
     else
       let* checkout :=
         request (SumUp.GetCheckout checkoutId)
           (SumUp.getCheckout (base client) checkoutId) in
       let fetched := to_object checkout in
       ret (Some (<["transactions" := prop fetched "transactions"]>
                    (<["currency" := prop fetched "currency"]>
                       (<["amount" := prop fetched "amount"]>
                          (<["status" := VStr (status checkout)]>
                             (spread (in_data input))))))))
    (λ error, ret (in_data input)).

(** Returns the [data] of the output. *)
Definition updatePayment (input : UpdatePaymentInput)
    : BaseEff (gmap string JsVal) :=
  try_catch
    (let checkoutId := opt_member (as_value (update_data input)) "id" in
     if negb (truthy checkoutId) then
       throw (mkError (MedusaError INVALID_DATA)
                "Checkout ID is required for update")
     else
       let* amount :=
         lift (SumUp.getAmountAsNumber new_BigNumber (update_amount input)) in
       ret (<["currency_code" := VStr (update_currency_code input)]>
              (<["amount" := amount]> (spread (update_data input)))))
    (λ error, throw error).

End Service.

End SumUpRest.

(** ** [SumUpClient.deactivateCheckout], the SDK-backed client *)

Module SumUpSdk.
Import Js Eff Host.
#[local] Open Scope eff_scope.

(** The one call [deactivateCheckout] can make. *)
Inductive Call : Type :=
  | CheckoutsDeactivate (checkoutId : JsVal).

(** [this.client.checkouts.deactivate], when [this.client],
    [this.client.checkouts] and the method all exist; it resolves to the
    SDK's result or rejects. *)
Definition Sdk (S : Type) : Type :=
  option (JsVal → S → Outcome JsVal * S).

Section Client.
Context {S : Type}.
Variable sdk : Sdk S.

(** The error [handleApiError] throws for a caught one. *)
Variable handled : JsError → JsError.

Abbreviation Eff := (@Eff.Eff S Call).

(** The stand-in the method returns when the SDK gave nothing; [now] is
    [new Date().toISOString()]. *)
Definition mock (id : JsVal) (st : JsVal) (now : string)
    : gmap string JsVal :=
  list_to_map
    [ ("id", id);
      ("checkout_reference", VStr "");
      ("amount", zero);
      ("currency", VStr "");
      ("status", st);
      ("date", VStr now);
      ("description", VUndefined);
      ("merchant_code", VStr "");
      ("merchant_country", VStr "");
      ("merchant_name", VStr "");
      ("purpose", VStr "CHECKOUT");
      ("transactions", VArr []) ].

Definition deactivateCheckout (now : string) (checkoutId : JsVal)
    : Eff (gmap string JsVal) :=
  try_catch
    (let* answered :=
       match sdk with
       | Some deactivate =>
           try_catch
             (let* result :=
                request (CheckoutsDeactivate checkoutId)
                  (deactivate checkoutId) in
              let* id := lift (member result "id") in
              let* st := lift (member result "status") in
              ret (Some (mock (or_else id (VStr "")) st now)))
             (λ sdkError, ret None)
       | None => ret None
       end in
     match answered with
     | Some checkout => ret checkout
     | None => ret (mock checkoutId (VStr "EXPIRED") now)
     end)
    (λ error, throw (handled error)).

End Client.

End SumUpSdk.

(** ** Observations and concrete instances for the rest of the adapters *)

Module ObsRest.
Import Js Eff Host HostRest.

(** The webhook action that stands for a mapped status. *)
Definition host_action (st : Looked PaymentSessionStatus) : PaymentActions :=
  match st with
  | Mapped AUTHORIZED => ACT_AUTHORIZED
  | Mapped CAPTURED => ACT_SUCCESSFUL
  | Mapped ERROR => ACT_FAILED
  | Mapped CANCELED => ACT_CANCELED
  | Mapped PENDING => ACT_PENDING
  | Mapped REQUIRES_MORE => ACT_REQUIRES_MORE
  | Inherited _ | Absent => ACT_NOT_SUPPORTED
  end.

(** The data of a SumUp webhook result: the two keys [session_id] and
    [amount], with a [session_id] that is truthy or the empty string. *)
Definition well_shaped (data : gmap string JsVal) : Prop :=
  dom data = {[ "session_id"; "amount" ]}
  ∧ ∃ session_id,
      data !! "session_id" = Some session_id
      ∧ (truthy session_id = true ∨ session_id = VStr "").

(** The fields [retrievePayment] of the SumUp adapter overwrites. *)
Definition sumup_retrieved_keys : list string :=
  [ "status"; "amount"; "currency"; "transactions" ].

End ObsRest.

Module DemoRest.
Import Js Eff Host HostRest.

(** The Mollie gateway of [Demo.mollie], which also accepts every refund
    and update. *)
Definition mollie : MollieRest.Client (option Remote) :=
  {| MollieRest.base := Demo.mollie;
     MollieRest.paymentRefunds_create := λ params s,
       (Ok (<["id" := VStr "re_1"]> params), s);
     MollieRest.payments_update := λ id fields s,
       match s with
       | Some p =>
           let p' := mkRemote (status p) (fields ∪ props p) in
           (Ok p', Some p')
       | None => (Throw Demo.not_found, s)
       end |}.

(** The SumUp gateway of [Demo.sumup], which also accepts every refund. *)
Definition sumup : SumUpRest.Client (option Remote) :=
  {| SumUpRest.base := Demo.sumup;
     SumUpRest.refundTransaction := λ id data s, (Ok tt, s) |}.

(** A Mollie gateway whose reads fail until a countdown reaches zero. *)
Definition flaky : Mollie.Client (nat * Remote) :=
  {| Mollie.payments_create := λ params s, (Throw Demo.not_found, s);
     Mollie.payments_get := λ id s,
       match s with
       | (O, p) => (Ok p, s)
       | (Datatypes.S n, p) => (Throw Demo.not_found, (n, p))
       end;
     Mollie.payments_cancel := λ id s, (Throw Demo.not_found, s);
     Mollie.paymentCaptures_create := λ id s,
       (Ok tt, s) |}.

(** A SumUp gateway that knows no merchant. *)
Definition merchantless : SumUp.Client (option Remote) :=
  {| SumUp.getMerchant := λ s, (Ok (VObj ∅), s);
     SumUp.createCheckout := SumUp.createCheckout Demo.sumup;
     SumUp.getCheckout := SumUp.getCheckout Demo.sumup;
     SumUp.deactivateCheckout := SumUp.deactivateCheckout Demo.sumup |}.

(** A SumUp service with no merchant code in its options. *)
Definition unconfigured : SumUp.Service :=
  {| SumUp.options_ :=
       {| SumUp.apiKey := "sup_sk_test";
          SumUp.merchantCode := None;
          SumUp.redirectUrl := "https://shop.example/done";
          SumUp.medusaUrl := "https://api.example";
          SumUp.autoCapture := None;
          SumUp.description := None;
          SumUp.debug_option := None;
          SumUp.environment := None |};
     SumUp.debug_ := false |}.

(** An SDK whose [deactivate] always rejects. *)
Definition failing_sdk : SumUpSdk.Sdk (option Remote) :=
  Some (λ id s, (Throw Demo.not_found, s)).

End DemoRest.

(** ** Properties *)

Module Props.
Import Js Eff Host Obs.

(** *** The effect layer *)

Section EffFacts.
Context {S Call : Type}.
Implicit Types s : S.

Lemma try_catch_rethrow {A} (m : @Eff.Eff S Call A) s :
  try_catch m (λ e, throw e) s = m s.
Proof.
  unfold try_catch, throw.
  destruct (m s) as [[[a|e] s1] t1]; [done|].
  by rewrite app_nil_r.
Qed.

Lemma request_run {A} (c : Call) (f : S → Outcome A * S) s o s1 :
  f s = (o, s1) → request c f s = (o, s1, [c]).
Proof. unfold request. by intros ->. Qed.

Lemma bind_ok {A B} (m : @Eff.Eff S Call A) (k : A → @Eff.Eff S Call B)
    s a s1 t1 :
  m s = (Ok a, s1, t1) →
  bind m k s = ((k a s1).1.1, (k a s1).1.2, t1 ++ (k a s1).2).
Proof.
  unfold bind. intros ->. by destruct (k a s1) as [[o s2] t2].
Qed.

Lemma bind_throw {A B} (m : @Eff.Eff S Call A) (k : A → @Eff.Eff S Call B)
    s e s1 t1 :
  m s = (Throw e, s1, t1) → bind m k s = (Throw e, s1, t1).
Proof. unfold bind. by intros ->. Qed.



Lemma bind_lift_ok {A B} (a : A) (k : A → @Eff.Eff S Call B) s :
  bind (lift (Ok a)) k s = k a s.
Proof.
  unfold bind, lift. by destruct (k a s) as [[o s2] t2].
Qed.

Lemma bind_lift_throw {A B} (e : JsError) (k : A → @Eff.Eff S Call B) s :
  bind (lift (Throw e)) k s = (Throw e, s, []).
Proof. reflexivity. Qed.

End EffFacts.

(** *** Reading a property back *)

Lemma prop_singleton (k : string) (v : JsVal) : prop {[ k := v ]} k = v.
Proof. unfold prop. by rewrite lookup_singleton_eq. Qed.

Lemma data_id_by_id (id : JsVal) : data_id (Mollie.by_id id) = id.
Proof. unfold data_id, Mollie.by_id. simpl. apply prop_singleton. Qed.

(** *** The status tables *)

Lemma mollie_statusMap_outside (status : string) :
  status ∉ mollie_statuses → Mollie.statusMap !! status = None.
Proof.
  intros Hout. unfold Mollie.statusMap.
  apply not_elem_of_list_to_map_1. exact Hout.
Qed.

Lemma sumup_statusMap_outside (status : string) :
  status ∉ sumup_statuses → SumUp.statusMap !! status = None.
Proof.
  intros Hout. unfold SumUp.statusMap.
  apply not_elem_of_list_to_map_1. exact Hout.
Qed.

Lemma computed_read_outside {A} (table : gmap string A) (key : string) :
  table !! key = None → key ∉ object_prototype_members →
  computed_read table key = Absent.
Proof.
  intros Hnone Hproto. unfold computed_read. rewrite Hnone.
  by rewrite bool_decide_eq_false_2.
Qed.

(** The seven entries of Mollie's table and the three of SumUp's. *)
Example mollie_table :
  Mollie.mapStatus "open" = Mapped REQUIRES_MORE
  ∧ Mollie.mapStatus "canceled" = Mapped CANCELED
  ∧ Mollie.mapStatus "pending" = Mapped PENDING
  ∧ Mollie.mapStatus "authorized" = Mapped AUTHORIZED
  ∧ Mollie.mapStatus "expired" = Mapped ERROR
  ∧ Mollie.mapStatus "failed" = Mapped ERROR
  ∧ Mollie.mapStatus "paid" = Mapped CAPTURED.
Proof. repeat split; reflexivity. Qed.

Example sumup_table :
  SumUp.mapStatus "PENDING" = Mapped PENDING
  ∧ SumUp.mapStatus "FAILED" = Mapped ERROR
  ∧ SumUp.mapStatus "PAID" = Mapped AUTHORIZED.
Proof. repeat split; reflexivity. Qed.

(** [getPaymentStatus] applies the table to the status it fetched. *)
Lemma mollie_getPaymentStatus_resolved {S} (client : Mollie.Client S)
    (input : PaymentInput) (s s1 : S) (p : Remote) :
  Mollie.payments_get client (data_id input) s = (Ok p, s1) →
  Mollie.getPaymentStatus client input s
  = (Ok {| out_status := Mollie.mapStatus (status p); out_data := None |},
     s1, [Mollie.PaymentsGet (data_id input)]).
Proof.
  intros Hget. unfold Mollie.getPaymentStatus.
  rewrite try_catch_rethrow.
  erewrite bind_ok; [|by apply request_run]. done.
Qed.

Lemma mollie_getPaymentStatus_rejected {S} (client : Mollie.Client S)
    (input : PaymentInput) (s s1 : S) (e : JsError) :
  Mollie.payments_get client (data_id input) s = (Throw e, s1) →
  Mollie.getPaymentStatus client input s
  = (Throw e, s1, [Mollie.PaymentsGet (data_id input)]).
Proof.
  intros Hget. unfold Mollie.getPaymentStatus.
  rewrite try_catch_rethrow.
  erewrite bind_throw; [done|by apply request_run].
Qed.

Lemma sumup_getPaymentStatus_resolved {S} (client : SumUp.Client S)
    (input : PaymentInput) (s s1 : S) (c : Remote) :
  truthy (data_id input) = true →
  SumUp.getCheckout client (data_id input) s = (Ok c, s1) →
  SumUp.getPaymentStatus client input s
  = (Ok {| out_status := SumUp.mapStatus (status c);
           out_data := Some (SumUp.with_status_and_transactions input c) |},
     s1, [SumUp.GetCheckout (data_id input)]).
Proof.
  intros Hid Hget. unfold SumUp.getPaymentStatus, try_catch.
  rewrite Hid. simpl.
  erewrite bind_ok; [|by apply request_run]. done.
Qed.

(** C1, as amended. A status in an adapter's table is mapped to a member
    of the host's status set, and the lookup never throws. For a status
    outside the table that does not name a member inherited from
    [Object.prototype], Mollie's lookup yields [undefined] and SumUp's
    yields [PENDING]; neither yields [ERROR]. *)
Theorem status_mapping_total (status : string) :
  (status ∈ mollie_statuses →
     ∃ host, Mollie.mapStatus status = Mapped host)
  ∧ (status ∈ sumup_statuses →
     ∃ host, SumUp.mapStatus status = Mapped host)
  ∧ (status ∉ object_prototype_members →
     (status ∉ mollie_statuses → Mollie.mapStatus status = Absent)
     ∧ (status ∉ sumup_statuses → SumUp.mapStatus status = Mapped PENDING)).
Proof.
  split; [|split; [|split]].
  - intros Hin. unfold mollie_statuses in Hin.
    repeat (apply elem_of_cons in Hin as [->|Hin]; [by eexists|]).
    by apply elem_of_nil in Hin.
  - intros Hin. unfold sumup_statuses in Hin.
    repeat (apply elem_of_cons in Hin as [->|Hin]; [by eexists|]).
    by apply elem_of_nil in Hin.
  - intros Hout. unfold Mollie.mapStatus.
    apply computed_read_outside; [|done].
    by apply mollie_statusMap_outside.
  - intros Hout. unfold SumUp.mapStatus.
    rewrite computed_read_outside; [done| |done].
    by apply sumup_statusMap_outside.
Qed.

Lemma status_mapping_total_witness :
  (∃ host, Mollie.mapStatus "paid" = Mapped host)
  ∧ (∃ host, SumUp.mapStatus "PAID" = Mapped host)
  ∧ Mollie.mapStatus "EXPIRED" = Absent
  ∧ SumUp.mapStatus "EXPIRED" = Mapped PENDING.
Proof.
  split; [|split; [|split]].
  - apply (status_mapping_total "paid"). compute_done.
  - apply (status_mapping_total "PAID"). compute_done.
  - apply (status_mapping_total "EXPIRED"); compute_done.
  - apply (status_mapping_total "EXPIRED"); compute_done.
Defined.

(** C1 as stated fails: on a payment whose gateway status is outside the
    table, Mollie's [getPaymentStatus] returns the status [undefined], and
    SumUp's returns [PENDING] for a checkout reported as [EXPIRED]. *)
Lemma status_mapping_not_fail_closed :
  outcome (Mollie.getPaymentStatus Demo.mollie (Demo.input_for "tr_1")
             (Some (Demo.payment "processing")))
  = Ok {| out_status := Absent; out_data := None |}
  ∧ outcome (SumUp.getPaymentStatus Demo.sumup (Demo.input_for "co_1")
               (Some (Demo.checkout "EXPIRED")))
    = Ok {| out_status := Mapped PENDING;
            out_data := Some (list_to_map
                                [ ("id", VStr "co_1");
                                  ("status", VStr "EXPIRED");
                                  ("transactions", VUndefined) ]) |}.
Proof. split; reflexivity. Qed.

(** *** Failed fetches in [getPaymentStatus] *)

Ltac run_eff :=
  unfold try_catch, bind, request, ret, throw, lift, outcome, final, issued
    in *;
  simpl in *.

Lemma sumup_getPaymentStatus_never_throws {S} (client : SumUp.Client S)
    (input : PaymentInput) (s : S) :
  ∃ out, outcome (SumUp.getPaymentStatus client input s) = Ok out.
Proof.
  unfold SumUp.getPaymentStatus. run_eff.
  destruct (truthy (data_id input)); simpl; [|by eexists].
  destruct (SumUp.getCheckout client (data_id input) s) as [[c|e] s1];
    simpl; by eexists.
Qed.

(** C6, as amended. SumUp's [getPaymentStatus] never throws: it returns
    the status [ERROR] when the checkout id is missing and when the fetch
    from the gateway fails. Mollie's [getPaymentStatus] rethrows the error
    of a failed fetch. *)
Theorem getPaymentStatus_on_failed_fetch {S S'} (mollie : Mollie.Client S)
    (sumup : SumUp.Client S') (input : PaymentInput) (s : S) (s' : S') :
  (∃ out, outcome (SumUp.getPaymentStatus sumup input s') = Ok out)
  ∧ (truthy (data_id input) = false →
     outcome (SumUp.getPaymentStatus sumup input s')
     = Ok {| out_status := Mapped ERROR; out_data := None |})
  ∧ (∀ e s1, SumUp.getCheckout sumup (data_id input) s' = (Throw e, s1) →
     outcome (SumUp.getPaymentStatus sumup input s')
     = Ok {| out_status := Mapped ERROR; out_data := None |})
  ∧ (∀ e s1, Mollie.payments_get mollie (data_id input) s = (Throw e, s1) →
     outcome (Mollie.getPaymentStatus mollie input s) = Throw e).
Proof.
  split; [apply sumup_getPaymentStatus_never_throws|].
  split; [|split].
  - intros Hid. unfold SumUp.getPaymentStatus. run_eff. by rewrite Hid.
  - intros e s1 Hget. unfold SumUp.getPaymentStatus. run_eff.
    destruct (truthy (data_id input)); simpl; [|done].
    by rewrite Hget.
  - intros e s1 Hget.
    by rewrite (mollie_getPaymentStatus_rejected _ _ _ _ _ Hget).
Qed.

Lemma getPaymentStatus_on_failed_fetch_witness :
  outcome (SumUp.getPaymentStatus Demo.sumup (Demo.input_for "co_1") None)
  = Ok {| out_status := Mapped ERROR; out_data := None |}
  ∧ outcome (SumUp.getPaymentStatus Demo.sumup (mkInput None) None)
    = Ok {| out_status := Mapped ERROR; out_data := None |}
  ∧ outcome (Mollie.getPaymentStatus Demo.mollie (Demo.input_for "tr_1") None)
    = Throw Demo.not_found.
Proof.
  split; [|split].
  - eapply (getPaymentStatus_on_failed_fetch Demo.mollie Demo.sumup
              (Demo.input_for "co_1") None None).
    reflexivity.
  - apply (getPaymentStatus_on_failed_fetch Demo.mollie Demo.sumup
             (mkInput None) None None).
    reflexivity.
  - eapply (getPaymentStatus_on_failed_fetch Demo.mollie Demo.sumup
              (Demo.input_for "tr_1") None None).
    reflexivity.
Defined.

(** C6 as stated fails for Mollie: when the gateway does not know the
    payment, [getPaymentStatus] throws the client's error. *)
Lemma mollie_getPaymentStatus_throws :
  Mollie.getPaymentStatus Demo.mollie (Demo.input_for "tr_1") None
  = (Throw Demo.not_found, None, [Mollie.PaymentsGet (VStr "tr_1")]).
Proof. reflexivity. Qed.

(** *** SumUp's [cancelPayment] *)

(** C10. SumUp's [cancelPayment] returns successfully on every input and
    every gateway: the data is the input's data with [status] set to
    ["CANCELLED"], whether the checkout id is missing, the checkout is
    paid, or [deactivateCheckout] fails. *)
Theorem sumup_cancelPayment_always_succeeds {S} (client : SumUp.Client S)
    (input : PaymentInput) (s : S) :
  outcome (SumUp.cancelPayment client input s)
  = Ok (<["status" := VStr "CANCELLED"]> (spread (in_data input))).
Proof.
  unfold SumUp.cancelPayment. run_eff.
  destruct (truthy (data_id input)); simpl; [|done].
  by destruct (SumUp.deactivateCheckout client (data_id input) s)
    as [[c|e] s1].
Qed.

(** The three situations, on the concrete gateway: no id, a
    paid checkout (whose deactivation the gateway refuses), and a gateway
    that rejects every call. *)
Example sumup_cancelPayment_cases :
  SumUp.cancelPayment Demo.sumup (mkInput (Some {[ "note" := VStr "n" ]}))
    (Some (Demo.checkout "PAID"))
  = (Ok (list_to_map [ ("note", VStr "n"); ("status", VStr "CANCELLED") ]),
     Some (Demo.checkout "PAID"), [])
  ∧ SumUp.cancelPayment Demo.sumup (Demo.input_for "co_1")
      (Some (Demo.checkout "PAID"))
    = (Ok (list_to_map [ ("id", VStr "co_1"); ("status", VStr "CANCELLED") ]),
       Some (Demo.checkout "PAID"), [SumUp.DeactivateCheckout (VStr "co_1")])
  ∧ SumUp.cancelPayment Demo.sumup (Demo.input_for "co_1") None
    = (Ok (list_to_map [ ("id", VStr "co_1"); ("status", VStr "CANCELLED") ]),
       None, [SumUp.DeactivateCheckout (VStr "co_1")]).
Proof. repeat split; reflexivity. Qed.

(** *** SumUp's webhook handler *)


(** C9. Provided the host's [new BigNumber(0)] returns, SumUp's
    [getWebhookActionAndData] returns a result on every payload and never
    throws, and whenever its [try] block throws the result is the action
    [failed] with [session_id] [""] and [amount] [new BigNumber(0)]. *)
Theorem sumup_webhook_total {S} (new_BigNumber : JsVal → Outcome JsVal)
    (payload : WebhookPayload) (s : S) (big_zero : JsVal) :
  new_BigNumber zero = Ok big_zero →
  (∃ result,
     outcome (SumUp.getWebhookActionAndData (S:=S) new_BigNumber payload s)
     = Ok result)
  ∧ (∀ e,
       outcome (SumUp.webhook_try (S:=S) new_BigNumber payload s) = Throw e →
       outcome (SumUp.getWebhookActionAndData (S:=S) new_BigNumber payload s)
       = Ok {| action := ACT_FAILED;
               wh_data := list_to_map [ ("session_id", VStr "");
                                        ("amount", big_zero) ] |}).
Proof.
  intros Hzero. unfold SumUp.getWebhookActionAndData.
  unfold try_catch at 1 2, outcome.
  destruct (SumUp.webhook_try new_BigNumber payload s) as [[[r|e] s1] t1];
    simpl.
  - split; [by eexists|]. intros e [=].
  - unfold bind, lift, ret. rewrite Hzero. simpl.
    split; [by eexists|]. done.
Qed.

Lemma sumup_webhook_total_witness :
  let payload := mkPayload (VObj {[ "event_type" := VStr "checkout_paid" ]}) in
  (∃ result,
     outcome (SumUp.getWebhookActionAndData (S:=option Remote)
                Demo.new_BigNumber payload None) = Ok result)
  ∧ outcome (SumUp.getWebhookActionAndData (S:=option Remote)
               Demo.new_BigNumber payload None)
    = Ok {| action := ACT_FAILED;
            wh_data := list_to_map [ ("session_id", VStr "");
                                     ("amount", VBigNumber zero) ] |}.
Proof.
  intros payload.
  destruct (sumup_webhook_total (S:=option Remote) Demo.new_BigNumber
              payload None (VBigNumber zero) eq_refl) as [Hreturns Hfailed].
  split; [exact Hreturns|].
  eapply Hfailed. reflexivity.
Defined.

(** Payloads that lack [resource], [event_type] or [amount], and a payload
    with no body at all. *)
Example sumup_webhook_missing_fields :
  let run payload :=
    outcome (SumUp.getWebhookActionAndData (S:=option Remote)
               Demo.new_BigNumber (mkPayload payload) None) in
  let resource := VObj (list_to_map [ ("id", VStr "co_1");
                                      ("amount", VNum (Q2Qc 5)) ]) in
  run (VObj {[ "event_type" := VStr "checkout_paid" ]})
  = Ok {| action := ACT_FAILED;
          wh_data := list_to_map [ ("session_id", VStr "");
                                   ("amount", VBigNumber zero) ] |}
  ∧ run (VObj {[ "resource" := resource ]})
    = Ok {| action := ACT_NOT_SUPPORTED;
            wh_data := list_to_map
                         [ ("session_id", VStr "co_1");
                           ("amount", VBigNumber (VNum (Q2Qc 5))) ] |}
  ∧ run (VObj (list_to_map
                 [ ("event_type", VStr "checkout_failed");
                   ("resource", VObj {[ "checkout_reference" := VStr "r" ]}) ]))
    = Ok {| action := ACT_FAILED;
            wh_data := list_to_map [ ("session_id", VStr "r");
                                     ("amount", VBigNumber zero) ] |}
  ∧ run VUndefined
    = Ok {| action := ACT_FAILED;
            wh_data := list_to_map [ ("session_id", VStr "");
                                     ("amount", VBigNumber zero) ] |}.
Proof. repeat split; vm_compute; reflexivity. Qed.

(** *** The create request of [initiatePayment] *)

Section Initiate.
Context {S S' : Type}.
Variable mollie : Mollie.Client S.
Variable mself : Mollie.Service.
Variable format_amount : JsVal → string.
Variable toUpperCase : string → string.
Variable sumup : SumUp.Client S'.
Variable sself : SumUp.Service.
Variable new_BigNumber : JsVal → Outcome JsVal.

(** Given an amount, Mollie's [initiatePayment] issues one call, the
    create request built by [createParams]; without one it throws before
    any call. *)
Lemma mollie_initiatePayment_issued (input : InitiatePaymentInput) (s : S)
    (value : string) :
  Mollie.amount_text format_amount (init_amount input) = Ok value →
  issued (Mollie.initiatePayment mollie mself format_amount toUpperCase
            input s)
  = [ Mollie.PaymentsCreate
        (Mollie.createParams mself toUpperCase value input) ].
Proof.
  intros Hvalue. unfold Mollie.initiatePayment.
  rewrite try_catch_rethrow, Hvalue, bind_lift_ok. run_eff.
  by destruct (Mollie.payments_create mollie _ s) as [[p|e] s1].
Qed.

Lemma mollie_initiatePayment_without_amount (input : InitiatePaymentInput)
    (s : S) (e : JsError) :
  Mollie.amount_text format_amount (init_amount input) = Throw e →
  Mollie.initiatePayment mollie mself format_amount toUpperCase input s
  = (Throw e, s, []).
Proof.
  intros Hvalue. unfold Mollie.initiatePayment.
  by rewrite try_catch_rethrow, Hvalue, bind_lift_throw.
Qed.

(** SumUp's [initiatePayment] ends in its first statement, the call of
    [getAmountAsNumber]: it throws there, before any call on the client. *)
Lemma sumup_initiatePayment_run (now random : string)
    (input : InitiatePaymentInput) (s : S') :
  SumUp.initiatePayment sumup sself new_BigNumber now random input s
  = (match new_BigNumber (init_amount input) with
     | Ok _ =>
         Throw (mkError TypeError
           "(intermediate value).toNumber is not a function")
     | Throw e => Throw e
     end, s, []).
Proof.
  unfold SumUp.initiatePayment, SumUp.getAmountAsNumber.
  rewrite try_catch_rethrow.
  destruct (new_BigNumber (init_amount input)) as [big|e];
    by rewrite bind_lift_throw.
Qed.

(** The [captureMode] of Mollie's create request: ["automatic"] when the
    [autoCapture] option is [true], ["manual"] when it is [false] and when
    it is left out. *)
Lemma mollie_captureMode_of_create_request (input : InitiatePaymentInput)
    (value : string) (s : S) :
  Mollie.amount_text format_amount (init_amount input) = Ok value →
  (λ params : gmap string JsVal, params !! "captureMode")
    <$> mollie_created
          (issued (Mollie.initiatePayment mollie mself format_amount
                     toUpperCase input s))
  = [ Some (VStr match Mollie.autoCapture (Mollie.options mself) with
                 | Some true => "automatic"
                 | Some false | None => "manual"
                 end) ].
Proof.
  intros Hvalue.
  rewrite (mollie_initiatePayment_issued input s value Hvalue). simpl.
  unfold Mollie.createParams, Mollie.autoCapture_on.
  by destruct (Mollie.autoCapture (Mollie.options mself)) as [[]|].
Qed.

(** The [metadata] of Mollie's create request:
    [{ idempotency_key: context?.idempotency_key }]. *)
Lemma mollie_metadata_of_create_request (input : InitiatePaymentInput)
    (value : string) (s : S) :
  Mollie.amount_text format_amount (init_amount input) = Ok value →
  (λ params : gmap string JsVal, params !! "metadata")
    <$> mollie_created
          (issued (Mollie.initiatePayment mollie mself format_amount
                     toUpperCase input s))
  = [ Some (VObj {[ "idempotency_key" :=
                      opt_member (init_context input) "idempotency_key" ]}) ].
Proof.
  intros Hvalue.
  rewrite (mollie_initiatePayment_issued input s value Hvalue).
  reflexivity.
Qed.

End Initiate.

(** C3. With the [autoCapture] option left out, the create request of
    Mollie's [initiatePayment] asks for manual capture, where the claim
    and the option's documentation ("defaults to true") say automatic.
    SumUp's [initiatePayment], with the option [false], throws in
    [getAmountAsNumber] and sends no create request at all. *)
Theorem capture_mode_not_as_documented :
  (λ params : gmap string JsVal, params !! "captureMode")
    <$> mollie_created
          (issued (Mollie.initiatePayment Demo.mollie
                     (Demo.mollie_service None) Demo.format_amount
                     Demo.toUpperCase
                     (mkInitiate VUndefined (VNum (Q2Qc 10)) "eur") None))
  = [ Some (VStr "manual") ]
  ∧ SumUp.initiatePayment Demo.sumup (Demo.sumup_service (Some false))
      Demo.new_BigNumber "1" "x"
      (mkInitiate VUndefined (VNum (Q2Qc 10)) "EUR") None
    = (Throw (mkError TypeError
                "(intermediate value).toNumber is not a function"),
       None, []).
Proof.
  split.
  - by rewrite (mollie_captureMode_of_create_request Demo.mollie
                  (Demo.mollie_service None) Demo.format_amount
                  Demo.toUpperCase _ "10.00").
  - by rewrite sumup_initiatePayment_run.
Qed.

(** C5. With the idempotency key ["abc"] in the context, SumUp's
    [initiatePayment] throws in [getAmountAsNumber] before any call on
    the client: no create request is sent, so the key is embedded
    nowhere. On the same input Mollie's [initiatePayment] sends one create
    request, whose metadata holds the key. *)
Theorem idempotency_key_not_sent_by_sumup :
  SumUp.initiatePayment Demo.sumup (Demo.sumup_service None)
    Demo.new_BigNumber "1" "x"
    (mkInitiate (VObj {[ "idempotency_key" := VStr "abc" ]})
       (VNum (Q2Qc 10)) "EUR") None
  = (Throw (mkError TypeError
              "(intermediate value).toNumber is not a function"),
     None, [])
  ∧ (λ params : gmap string JsVal, params !! "metadata")
      <$> mollie_created
            (issued (Mollie.initiatePayment Demo.mollie
                       (Demo.mollie_service (Some true)) Demo.format_amount
                       Demo.toUpperCase
                       (mkInitiate
                          (VObj {[ "idempotency_key" := VStr "abc" ]})
                          (VNum (Q2Qc 10)) "EUR") None))
    = [ Some (VObj {[ "idempotency_key" := VStr "abc" ]}) ].
Proof.
  split.
  - by rewrite sumup_initiatePayment_run.
  - by rewrite (mollie_metadata_of_create_request Demo.mollie
                  (Demo.mollie_service (Some true)) Demo.format_amount
                  Demo.toUpperCase _ "10.00").
Qed.

(** On the concrete Mollie gateway, which keeps what it was sent, the key
    given to [initiatePayment] comes back as the [session_id] of the
    webhook result. *)
Example mollie_idempotency_key_round_trip :
  let started :=
    Mollie.initiatePayment Demo.mollie (Demo.mollie_service (Some true))
      Demo.format_amount Demo.toUpperCase
      (mkInitiate (VObj {[ "idempotency_key" := VStr "abc" ]})
         (VNum (Q2Qc 10)) "eur") None in
  (λ r, wh_data r !! "session_id")
    <$> (match outcome
                 (Mollie.getWebhookActionAndData Demo.mollie
                    Demo.new_BigNumber
                    (mkPayload (VObj {[ "id" := VStr "tr_1" ]}))
                    (final started)) with
         | Ok r => Some r
         | Throw _ => None
         end)
  = Some (Some (VStr "abc")).
Proof. vm_compute. reflexivity. Qed.

(** *** Reads by id in the Mollie adapter *)

Lemma mollie_getPaymentStatus_by_id {S} (client : Mollie.Client S)
    (id : JsVal) (s : S) :
  Mollie.getPaymentStatus client (Mollie.by_id id) s
  = match Mollie.payments_get client id s with
    | (Ok p, s1) =>
        (Ok {| out_status := Mollie.mapStatus (status p); out_data := None |},
         s1, [Mollie.PaymentsGet id])
    | (Throw e, s1) => (Throw e, s1, [Mollie.PaymentsGet id])
    end.
Proof.
  destruct (Mollie.payments_get client id s) as [[p|e] s1] eqn:Hget;
    rewrite <- (data_id_by_id id) in Hget.
  - rewrite (mollie_getPaymentStatus_resolved _ _ _ _ _ Hget).
    by rewrite data_id_by_id.
  - rewrite (mollie_getPaymentStatus_rejected _ _ _ _ _ Hget).
    by rewrite data_id_by_id.
Qed.

Lemma mollie_retrievePayment_by_id {S} (client : Mollie.Client S)
    (id : JsVal) (s : S) :
  Mollie.retrievePayment client (Mollie.by_id id) s
  = match Mollie.payments_get client id s with
    | (o, s1) => (o, s1, [Mollie.PaymentsGet id])
    end.
Proof.
  unfold Mollie.retrievePayment.
  rewrite try_catch_rethrow, data_id_by_id. reflexivity.
Qed.

(** *** [authorizePayment] *)

Lemma includes_authorized (st : Looked PaymentSessionStatus) :
  Mollie.includes ["captured"; "authorized"; "paid"] st = true
  ↔ st = Mapped AUTHORIZED ∨ st = Mapped CAPTURED.
Proof.
  unfold Mollie.includes.
  destruct st as [[]| |]; split; intros H;
    first [ by left | by right | by destruct H as [[=]|[=]]
          | by vm_compute in H ].
Qed.

Lemma mollie_authorizePayment_run {S} (client : Mollie.Client S)
    (native_text : string → string) (input : PaymentInput) (s s1 : S)
    (p : Remote) :
  truthy (data_id input) = true →
  Mollie.payments_get client (data_id input) s = (Ok p, s1) →
  outcome (Mollie.authorizePayment client native_text input s)
  = if Mollie.includes ["captured"; "authorized"; "paid"]
         (Mollie.mapStatus (status p))
    then Ok {| out_status := Mollie.mapStatus (status p);
               out_data := in_data input |}
    else Throw (mkError (MedusaError INVALID_DATA)
                  ("Payment is not authorized: current status is "
                   +:+ Mollie.render native_text
                         (Mollie.mapStatus (status p)))).
Proof.
  intros Hid Hget. unfold Mollie.authorizePayment.
  rewrite Hid. cbn [negb]. rewrite try_catch_rethrow.
  unfold bind. rewrite mollie_getPaymentStatus_by_id, Hget.
  cbn [out_status].
  by destruct (Mollie.includes _ _).
Qed.

(** C4, as amended. With a checkout or payment id in the input and a
    fetch that succeeds: Mollie's [authorizePayment] returns exactly when
    the mapped status is [AUTHORIZED] or [CAPTURED], with that status and
    the input's data, and otherwise throws an [INVALID_DATA] error whose
    message ends in the current status; SumUp's [authorizePayment] always
    returns, with [AUTHORIZED] for a [PAID] checkout, [ERROR] for a
    [FAILED] one and [PENDING] for any other. *)
Theorem authorizePayment_by_status {S S'} (mollie : Mollie.Client S)
    (native_text : string → string) (sumup : SumUp.Client S')
    (input : PaymentInput) (s s1 : S) (s' s1' : S') (p c : Remote) :
  truthy (data_id input) = true →
  Mollie.payments_get mollie (data_id input) s = (Ok p, s1) →
  SumUp.getCheckout sumup (data_id input) s' = (Ok c, s1') →
  let st := Mollie.mapStatus (status p) in
  let authorized := st = Mapped AUTHORIZED ∨ st = Mapped CAPTURED in
  ((∃ out, outcome (Mollie.authorizePayment mollie native_text input s)
           = Ok out) ↔ authorized)
  ∧ (authorized →
     outcome (Mollie.authorizePayment mollie native_text input s)
     = Ok {| out_status := st; out_data := in_data input |})
  ∧ (¬ authorized →
     outcome (Mollie.authorizePayment mollie native_text input s)
     = Throw (mkError (MedusaError INVALID_DATA)
                ("Payment is not authorized: current status is "
                 +:+ Mollie.render native_text st)))
  ∧ ∃ out, outcome (SumUp.authorizePayment sumup input s') = Ok out
      ∧ out_status out
        = Mapped (if decide (status c = "PAID") then AUTHORIZED
                  else if decide (status c = "FAILED") then ERROR
                  else PENDING).
Proof.
  intros Hid Hget Hget' st authorized.
  pose proof (mollie_authorizePayment_run mollie native_text input s s1 p
                Hid Hget) as Hrun.
  fold st in Hrun.
  pose proof (includes_authorized st) as Hinc. fold authorized in Hinc.
  destruct (Mollie.includes _ st).
  - assert (authorized) as Hauth by by apply Hinc.
    rewrite Hrun. split; [|split; [|split]]; [| |done|].
    + split; [done|by eexists].
    + done.
    + clear Hrun. unfold SumUp.authorizePayment.
      rewrite try_catch_rethrow, Hid. cbn [negb].
      unfold bind, request, outcome. rewrite Hget'.
      repeat case_decide; simpl; by eexists.
  - assert (¬ authorized) as Hnot
      by (intros Hauth; by apply Hinc in Hauth).
    rewrite Hrun. split; [|split; [|split]]; [|done| |].
    + split; [by intros [out [=]]|done].
    + done.
    + clear Hrun. unfold SumUp.authorizePayment.
      rewrite try_catch_rethrow, Hid. cbn [negb].
      unfold bind, request, outcome. rewrite Hget'.
      repeat case_decide; simpl; by eexists.
Qed.

Lemma authorizePayment_by_status_witness :
  outcome (Mollie.authorizePayment Demo.mollie Demo.native_text
             (Demo.input_for "tr_1") (Some (Demo.payment "open")))
  = Throw (mkError (MedusaError INVALID_DATA)
             "Payment is not authorized: current status is requires_more").
Proof.
  eapply (authorizePayment_by_status Demo.mollie Demo.native_text Demo.sumup
            (Demo.input_for "tr_1") (Some (Demo.payment "open")) _
            (Some (Demo.payment "open")) _ (Demo.payment "open")
            (Demo.payment "open")).
  - reflexivity.
  - reflexivity.
  - reflexivity.
  - vm_compute. by intros [[=]|[=]].
Defined.

(** C4 as stated fails for SumUp: for a checkout the gateway reports as
    [FAILED], and for one it reports as [PENDING], [authorizePayment]
    returns normally, with the status [ERROR] and [PENDING]. *)
Lemma sumup_authorizePayment_returns_unauthorized :
  outcome (SumUp.authorizePayment Demo.sumup (Demo.input_for "co_1")
             (Some (Demo.checkout "FAILED")))
  = Ok {| out_status := Mapped ERROR;
          out_data := Some (list_to_map [ ("id", VStr "co_1");
                                          ("status", VStr "FAILED") ]) |}
  ∧ outcome (SumUp.authorizePayment Demo.sumup (Demo.input_for "co_1")
               (Some (Demo.checkout "PENDING")))
    = Ok {| out_status := Mapped PENDING;
            out_data := Some (list_to_map [ ("id", VStr "co_1");
                                            ("status", VStr "PENDING") ]) |}.
Proof. split; reflexivity. Qed.

(** *** Mollie's [cancelPayment] *)

Lemma mollie_cancelPayment_run {S} (client : Mollie.Client S)
    (input : PaymentInput) (data : gmap string JsVal) (s s1 : S)
    (p : Remote) :
  in_data input = Some data →
  Mollie.payments_get client (prop data "id") s = (Ok p, s1) →
  Mollie.cancelPayment client input s
  = if decide (status p = "expired") then
      (Ok {[ "id" := prop data "id" ]}, s1,
       [Mollie.PaymentsGet (prop data "id")])
    else
      match Mollie.payments_cancel client (prop data "id") s1 with
      | (Ok cancelled, s2) =>
          (Ok (to_object cancelled), s2,
           [Mollie.PaymentsGet (prop data "id");
            Mollie.PaymentsCancel (prop data "id")])
      | (Throw _, s2) =>
          (Ok {[ "data" := VObj (to_object p) ]}, s2,
           [Mollie.PaymentsGet (prop data "id");
            Mollie.PaymentsCancel (prop data "id")])
      end.
Proof.
  intros Hdata Hget.
  assert (data_id input = prop data "id") as Hid
    by (unfold data_id; by rewrite Hdata).
  unfold Mollie.cancelPayment. rewrite Hdata, try_catch_rethrow, Hid.
  unfold bind at 1. unfold request at 1. rewrite Hget.
  case_decide; [done|].
  unfold bind, try_catch, request, ret.
  by destruct (Mollie.payments_cancel client (prop data "id") s1)
    as [[q|e] s2].
Qed.

(** C7, as amended. With data in the input and a fetch that succeeds:
    when the gateway reports the payment as [expired], [cancelPayment]
    returns [{ id }] and its only call is the fetch; for any other status,
    [failed] included, it then issues one cancel call, and it returns
    normally whether that call succeeds or fails. *)
Theorem mollie_cancelPayment_by_status {S} (client : Mollie.Client S)
    (input : PaymentInput) (data : gmap string JsVal) (s s1 : S)
    (p : Remote) :
  in_data input = Some data →
  Mollie.payments_get client (prop data "id") s = (Ok p, s1) →
  (status p = "expired" →
     Mollie.cancelPayment client input s
     = (Ok {[ "id" := prop data "id" ]}, s1,
        [Mollie.PaymentsGet (prop data "id")]))
  ∧ (status p ≠ "expired" →
     issued (Mollie.cancelPayment client input s)
     = [Mollie.PaymentsGet (prop data "id");
        Mollie.PaymentsCancel (prop data "id")]
     ∧ ∃ out, outcome (Mollie.cancelPayment client input s) = Ok out).
Proof.
  intros Hdata Hget.
  rewrite (mollie_cancelPayment_run client input data s s1 p Hdata Hget).
  split; intros Hexp.
  - by rewrite decide_True.
  - rewrite decide_False by done.
    destruct (Mollie.payments_cancel client (prop data "id") s1)
      as [[q|e] s2]; (split; [done|]); by eexists.
Qed.

Lemma mollie_cancelPayment_by_status_witness :
  Mollie.cancelPayment Demo.mollie (Demo.input_for "tr_1")
    (Some (Demo.payment "expired"))
  = (Ok {[ "id" := VStr "tr_1" ]}, Some (Demo.payment "expired"),
     [Mollie.PaymentsGet (VStr "tr_1")]).
Proof.
  destruct (mollie_cancelPayment_by_status Demo.mollie
              (Demo.input_for "tr_1") {[ "id" := VStr "tr_1" ]}
              (Some (Demo.payment "expired")) (Some (Demo.payment "expired"))
              (Demo.payment "expired") eq_refl eq_refl) as [Hexpired _].
  exact (Hexpired eq_refl).
Defined.

(** C7 as stated fails: for a payment the gateway reports as [failed],
    [cancelPayment] issues a cancel call after the fetch (the gateway
    refuses it, and the result nests the payment under [data]); for an
    expired payment the result holds the id alone, not the payment. *)
Lemma mollie_cancelPayment_on_terminal_states :
  Mollie.cancelPayment Demo.mollie (Demo.input_for "tr_1")
    (Some (Demo.payment "failed"))
  = (Ok {[ "data" := VObj (to_object (Demo.payment "failed")) ]},
     Some (Demo.payment "failed"),
     [Mollie.PaymentsGet (VStr "tr_1"); Mollie.PaymentsCancel (VStr "tr_1")])
  ∧ outcome (Mollie.cancelPayment Demo.mollie (Demo.input_for "tr_1")
               (Some (Demo.payment "expired")))
    = Ok {[ "id" := VStr "tr_1" ]}
  ∧ ({[ "id" := VStr "tr_1" ]} : gmap string JsVal)
    ≠ to_object (Demo.payment "expired").
Proof.
  split; [reflexivity|]. split; [reflexivity|].
  intros Heq.
  assert (({[ "id" := VStr "tr_1" ]} : gmap string JsVal) !! "status"
          = to_object (Demo.payment "expired") !! "status") as Hst
    by by rewrite Heq.
  vm_compute in Hst. discriminate Hst.
Qed.

(** *** The webhook handlers *)


(** When the fetch and [new BigNumber] succeed, the result of Mollie's
    handler is made of the fetched payment alone. *)
Lemma mollie_webhook_resolved {S} (client : Mollie.Client S)
    (new_BigNumber : JsVal → Outcome JsVal) (payload : WebhookPayload)
    (id big : JsVal) (s s1 : S) (p : Remote) :
  member (pl_data payload) "id" = Ok id →
  Mollie.payments_get client id s = (Ok p, s1) →
  new_BigNumber (prop (to_object p) "amount") = Ok big →
  Mollie.getWebhookActionAndData client new_BigNumber payload s
  = (Ok {| action := Mollie.action_of (status p);
           wh_data :=
             to_object p
             ∪ list_to_map
                 [ ("amount", big);
                   ("session_id",
                     opt_member (prop (to_object p) "metadata")
                       "idempotency_key") ] |},
     s1, [Mollie.PaymentsGet id]).
Proof.
  intros Hid Hget Hbig. unfold Mollie.getWebhookActionAndData.
  unfold try_catch at 1. rewrite Hid, bind_lift_ok.
  unfold bind at 1. unfold try_catch at 1.
  rewrite mollie_retrievePayment_by_id, Hget.
  unfold bind, lift, ret. by rewrite Hbig.
Qed.





(** On the same kind of delivery Mollie's handler answers from the
    gateway's record. *)
Example mollie_webhook_uses_gateway :
  (λ r, (action r, wh_data r !! "session_id"))
    <$> (match outcome
                 (Mollie.getWebhookActionAndData Demo.mollie
                    Demo.new_BigNumber
                    (mkPayload (VObj (list_to_map
                       [ ("id", VStr "tr_1"); ("status", VStr "paid") ])))
                    (Some (Demo.payment "failed"))) with
         | Ok r => Some r
         | Throw _ => None
         end)
  = Some (ACT_FAILED, Some (VStr "abc")).
Proof. vm_compute. reflexivity. Qed.

(** *** [capturePayment], called twice *)

Lemma capture_finish_issued {S} (client : Mollie.Client S)
    (self : Mollie.Service) (native_text : string → string)
    (input : PaymentInput) (pre : list Mollie.Call)
    (st : Looked PaymentSessionStatus) (u : S) :
  mollie_capture_requests
    (issued (capture_finish client self native_text input pre st u))
  = mollie_capture_requests pre.
Proof.
  unfold capture_finish, issued.
  destruct (Mollie.is_literal st "captured"); [|done].
  destruct (if Mollie.debug self then _ else _); [|done].
  destruct (Mollie.payments_get client (data_id input) u) as [[p|e] u1];
    simpl; unfold mollie_capture_requests; rewrite omap_app; simpl;
    by rewrite app_nil_r.
Qed.

Section Capture.
Context {S : Type}.
Variable client : Mollie.Client S.
Variable self : Mollie.Service.
Variable native_text : string → string.
Variable input : PaymentInput.
Let id := data_id input.

Lemma mollie_capturePayment_run (s : S) :
  truthy id = true →
  Mollie.capturePayment client self native_text input s
  = match Mollie.payments_get client id s with
    | (Throw e, s0) => (Throw e, s0, [Mollie.PaymentsGet id])
    | (Ok p0, s0) =>
        if Mollie.is_literal (Mollie.mapStatus (status p0)) "authorized"
           && negb (Mollie.autoCapture_on self)
        then
          match Mollie.paymentCaptures_create client id s0 with
          | (Throw e, sc) =>
              (Throw e, sc,
               [Mollie.PaymentsGet id; Mollie.PaymentCapturesCreate id])
          | (Ok _, sc) =>
              match Mollie.payments_get client id sc with
              | (Throw e, s2) =>
                  (Throw e, s2,
                   [Mollie.PaymentsGet id; Mollie.PaymentCapturesCreate id;
                    Mollie.PaymentsGet id])
              | (Ok p2, s2) =>
                  capture_finish client self native_text input
                    [Mollie.PaymentsGet id; Mollie.PaymentCapturesCreate id;
                     Mollie.PaymentsGet id]
                    (Mollie.mapStatus (status p2)) s2
              end
          end
        else
          capture_finish client self native_text input [Mollie.PaymentsGet id]
            (Mollie.mapStatus (status p0)) s0
    end.
Proof using Type.
  subst id. intros Hid. unfold Mollie.capturePayment.
  rewrite Hid. cbn [negb]. rewrite try_catch_rethrow. cbv zeta.
  unfold bind at 1. rewrite mollie_getPaymentStatus_by_id.
  destruct (Mollie.payments_get client (data_id input) s) as [[p0|e] s0];
    [|done].
  cbn [out_status]. unfold capture_finish.
  destruct (_ && _).
  - unfold bind at 1. unfold bind at 1. unfold request at 1.
    destruct (Mollie.paymentCaptures_create client (data_id input) s0)
      as [[[]|e] sc]; [|done].
    unfold bind at 1. rewrite mollie_getPaymentStatus_by_id.
    destruct (Mollie.payments_get client (data_id input) sc)
      as [[p2|e] s2]; [|done].
    cbn [out_status]. unfold ret at 1. cbn iota beta.
    destruct (Mollie.is_literal _ "captured"); cbn [negb]; [|done].
    unfold bind at 1, lift at 1.
    destruct (if Mollie.debug self then _ else _); [|done].
    unfold bind. rewrite mollie_retrievePayment_by_id.
    by destruct (Mollie.payments_get client (data_id input) s2)
      as [[p3|e] s3].
  - unfold bind at 1. unfold ret at 1.
    destruct (Mollie.is_literal _ "captured"); cbn [negb]; [|done].
    unfold bind at 1, lift at 1.
    destruct (if Mollie.debug self then _ else _); [|done].
    unfold bind. rewrite mollie_retrievePayment_by_id.
    by destruct (Mollie.payments_get client (data_id input) s0)
      as [[p3|e] s3].
Qed.

Lemma mollie_capturePayment_needs_id (s s1 : S) d t :
  Mollie.capturePayment client self native_text input s = (Ok d, s1, t) →
  truthy id = true.
Proof using Type.
  subst id. unfold Mollie.capturePayment.
  destruct (truthy (data_id input)); [done|]. by intros [=].
Qed.

Lemma is_literal_captured (st : Looked PaymentSessionStatus) :
  Mollie.is_literal st "captured" = true ↔ st = Mapped CAPTURED.
Proof using Type.
  destruct st as [[]| |]; split; intros H;
    first [ done | by vm_compute in H | by inversion H ].
Qed.

(** After a read that settled on [p], a finish that returns gives [p]
    back and leaves the gateway where it is. *)
Lemma capture_finish_settled (pre : list Mollie.Call) (p : Remote)
    (u u1 : S) d t :
  Mollie.payments_get client id u = (Ok p, u) →
  capture_finish client self native_text input pre
    (Mollie.mapStatus (status p)) u = (Ok d, u1, t) →
  d = to_object p ∧ u1 = u ∧ t = pre ++ [Mollie.PaymentsGet id]
  ∧ Mollie.mapStatus (status p) = Mapped CAPTURED
  ∧ capture_finish client self native_text input [Mollie.PaymentsGet id]
      (Mollie.mapStatus (status p)) u
    = (Ok (to_object p), u, [Mollie.PaymentsGet id; Mollie.PaymentsGet id]).
Proof using Type.
  subst id. intros Hget. unfold capture_finish.
  destruct (Mollie.is_literal _ "captured") eqn:Hcap; [|by intros [=]].
  apply is_literal_captured in Hcap.
  destruct (if Mollie.debug self then _ else _); [|by intros [=]].
  rewrite Hget. by intros [= <- <- <-].
Qed.

(** With repeatable reads, a call of Mollie's [capturePayment] that
    returns leaves the gateway settled on a captured payment, and a second
    call reads it twice and returns the same data. *)
Lemma mollie_capturePayment_again (s s1 : S) d t1 :
  repeatable_reads (Mollie.payments_get client) →
  Mollie.capturePayment client self native_text input s = (Ok d, s1, t1) →
  Mollie.capturePayment client self native_text input s1
  = (Ok d, s1, [Mollie.PaymentsGet id; Mollie.PaymentsGet id])
  ∧ (length (mollie_capture_requests t1) ≤ 1)%nat
  ∧ ∃ p, Mollie.payments_get client id s1 = (Ok p, s1)
         ∧ Mollie.mapStatus (status p) = Mapped CAPTURED.
Proof using Type.
  intros Hstable Hrun.
  pose proof (mollie_capturePayment_needs_id _ _ _ _ Hrun) as Hid.
  rewrite (mollie_capturePayment_run s Hid) in Hrun.
  destruct (Mollie.payments_get client id s) as [[p0|e] s0] eqn:Hget0;
    [|by inversion Hrun].
  assert (∀ pre p u,
            Mollie.payments_get client id u = (Ok p, u) →
            capture_finish client self native_text input pre
              (Mollie.mapStatus (status p)) u = (Ok d, s1, t1) →
            Mollie.capturePayment client self native_text input s1
            = (Ok d, s1, [Mollie.PaymentsGet id; Mollie.PaymentsGet id])
            ∧ t1 = pre ++ [Mollie.PaymentsGet id]
            ∧ ∃ q, Mollie.payments_get client id s1 = (Ok q, s1)
                   ∧ Mollie.mapStatus (status q) = Mapped CAPTURED)
    as Hsettled.
  { intros pre p u Hget Hfin.
    destruct (capture_finish_settled pre p u s1 d t1 Hget Hfin)
      as (-> & -> & -> & Hcap & Hnext).
    split; [|split; [done|by exists p]].
    rewrite (mollie_capturePayment_run u Hid). fold id.
    rewrite Hget. rewrite Hcap in Hnext |- *.
    change (Mollie.is_literal (Mapped CAPTURED) "authorized") with false.
    exact Hnext. }
  destruct (_ && _).
  - destruct (Mollie.paymentCaptures_create client id s0)
      as [[[]|e] sc]; [|by inversion Hrun].
    destruct (Mollie.payments_get client id sc) as [[p2|e] s2] eqn:Hget2;
      [|by inversion Hrun].
    apply Hstable in Hget2.
    destruct (Hsettled _ _ _ Hget2 Hrun) as (Hagain & -> & Hq).
    split; [done|]. split; [|done]. simpl. lia.
  - apply Hstable in Hget0.
    destruct (Hsettled _ _ _ Hget0 Hrun) as (Hagain & -> & Hq).
    split; [done|]. split; [|done]. simpl. lia.
Qed.

(** One call issues at most one capture request. *)
Lemma mollie_capturePayment_one_capture (s : S) :
  (length (mollie_capture_requests
             (issued (Mollie.capturePayment client self native_text input s)))
   ≤ 1)%nat.
Proof using Type.
  destruct (truthy id) eqn:Hid.
  - rewrite (mollie_capturePayment_run s Hid).
    destruct (Mollie.payments_get client id s) as [[p0|e] s0];
      [|simpl; lia].
    destruct (_ && _).
    + destruct (Mollie.paymentCaptures_create client id s0)
        as [[[]|e] sc]; [|simpl; lia].
      destruct (Mollie.payments_get client id sc) as [[p2|e] s2];
        [|simpl; lia].
      rewrite capture_finish_issued. simpl. lia.
    + rewrite capture_finish_issued. simpl. lia.
  - subst id. unfold Mollie.capturePayment. rewrite Hid. simpl. lia.
Qed.

(** With repeatable reads, a call that finds the payment mapped to
    [CAPTURED] sends no capture request: it returns the payment's data,
    unless the debug line throws, and then it throws that error. *)
Lemma mollie_capturePayment_on_captured (s u : S) (p : Remote) :
  repeatable_reads (Mollie.payments_get client) →
  truthy id = true →
  Mollie.payments_get client id s = (Ok p, u) →
  Mollie.mapStatus (status p) = Mapped CAPTURED →
  Mollie.capturePayment client self native_text input s
  = match (if Mollie.debug self then Mollie.capture_log_arguments input
           else Ok tt) with
    | Ok _ =>
        (Ok (to_object p), u, [Mollie.PaymentsGet id; Mollie.PaymentsGet id])
    | Throw e => (Throw e, u, [Mollie.PaymentsGet id])
    end.
Proof using Type.
  intros Hstable Hid Hget Hcap.
  rewrite (mollie_capturePayment_run s Hid), Hget, Hcap.
  change (Mollie.is_literal (Mapped CAPTURED) "authorized") with false.
  cbn [andb]. unfold capture_finish.
  change (Mollie.is_literal (Mapped CAPTURED) "captured") with true.
  cbn iota.
  destruct (if Mollie.debug self then _ else _); [|done].
  fold id. by rewrite (Hstable _ _ _ _ Hget).
Qed.

(** Whenever the payment is mapped to [CAPTURED] after a first call,
    whatever that call's outcome, the two calls issue at most one capture
    request between them, and the second returns the payment's data unless
    the debug line throws. *)
Lemma mollie_capturePayment_twice_captured (s u : S) (p : Remote) :
  repeatable_reads (Mollie.payments_get client) →
  truthy id = true →
  let first := Mollie.capturePayment client self native_text input s in
  let second :=
    Mollie.capturePayment client self native_text input (final first) in
  Mollie.payments_get client id (final first) = (Ok p, u) →
  Mollie.mapStatus (status p) = Mapped CAPTURED →
  (length (mollie_capture_requests (issued first ++ issued second))
   ≤ 1)%nat
  ∧ outcome second
    = match (if Mollie.debug self then Mollie.capture_log_arguments input
             else Ok tt) with
      | Ok _ => Ok (to_object p)
      | Throw e => Throw e
      end.
Proof using Type.
  intros Hstable Hid first second Hget Hcap. subst second.
  rewrite (mollie_capturePayment_on_captured _ _ _ Hstable Hid Hget Hcap).
  pose proof (mollie_capturePayment_one_capture s) as Hone.
  fold first in Hone.
  unfold mollie_capture_requests in *. rewrite omap_app.
  destruct (if Mollie.debug self then _ else _); simpl;
    rewrite app_nil_r; by split.
Qed.

End Capture.

Lemma sumup_capturePayment_again {S} (client : SumUp.Client S)
    (input : PaymentInput) (s s1 : S) d t1 :
  repeatable_reads (SumUp.getCheckout client) →
  SumUp.capturePayment client input s = (Ok d, s1, t1) →
  SumUp.capturePayment client input s1
  = (Ok d, s1, [SumUp.GetCheckout (data_id input)])
  ∧ t1 = [SumUp.GetCheckout (data_id input)].
Proof.
  intros Hstable. unfold SumUp.capturePayment.
  rewrite !try_catch_rethrow.
  destruct (truthy (data_id input)); cbn [negb]; [|by intros [=]].
  unfold bind, request.
  destruct (SumUp.getCheckout client (data_id input) s) as [[c|e] s0]
    eqn:Hget; [|by intros [=]].
  apply Hstable in Hget.
  destruct (bool_decide (status c = "PAID")) eqn:Hpaid; cbn [negb];
    [|by intros [=]].
  unfold ret. intros [= <- <- <-].
  by rewrite Hget, Hpaid.
Qed.

(** Where the first call returns, the second does what is asked of it.
    On a gateway whose successful reads are repeatable, once a call
    of [capturePayment] has returned, which for Mollie means the payment's
    mapped status is [CAPTURED] and for SumUp that the checkout is [PAID],
    a second call with the same input returns the same data; over the two
    calls Mollie's adapter issues at most one capture request, and SumUp's
    issues only the two reads of the checkout. *)
Theorem capturePayment_twice {S S'} (mollie : Mollie.Client S)
    (self : Mollie.Service) (native_text : string → string)
    (sumup : SumUp.Client S') (input : PaymentInput)
    (s s1 : S) (s' s1' : S') (d d' : gmap string JsVal)
    (t1 : list Mollie.Call) (t1' : list SumUp.Call) :
  repeatable_reads (Mollie.payments_get mollie) →
  repeatable_reads (SumUp.getCheckout sumup) →
  (Mollie.capturePayment mollie self native_text input s = (Ok d, s1, t1) →
   ∃ t2,
     Mollie.capturePayment mollie self native_text input s1 = (Ok d, s1, t2)
     ∧ (length (mollie_capture_requests (t1 ++ t2)) ≤ 1)%nat
     ∧ outcome (Mollie.getPaymentStatus mollie input s1)
       = Ok {| out_status := Mapped CAPTURED; out_data := None |})
  ∧ (SumUp.capturePayment sumup input s' = (Ok d', s1', t1') →
     ∃ t2',
       SumUp.capturePayment sumup input s1' = (Ok d', s1', t2')
       ∧ t1' ++ t2' = [SumUp.GetCheckout (data_id input);
                       SumUp.GetCheckout (data_id input)]).
Proof.
  intros Hmollie Hsumup. split.
  - intros Hrun.
    destruct (mollie_capturePayment_again mollie self native_text input
                s s1 d t1 Hmollie Hrun) as (Hagain & Hone & p & Hget & Hcap).
    eexists. split; [exact Hagain|]. split.
    + unfold mollie_capture_requests in *. rewrite omap_app. simpl.
      rewrite app_nil_r. exact Hone.
    + rewrite (mollie_getPaymentStatus_resolved _ _ _ _ _ Hget).
      by rewrite Hcap.
  - intros Hrun.
    destruct (sumup_capturePayment_again sumup input s' s1' d' t1'
                Hsumup Hrun) as (Hagain & ->).
    eexists. split; [exact Hagain|done].
Qed.

Lemma demo_mollie_repeatable :
  repeatable_reads (Mollie.payments_get Demo.mollie).
Proof. intros id [q|] p s1; simpl; intros [=]; by subst. Defined.

Lemma demo_sumup_repeatable :
  repeatable_reads (SumUp.getCheckout Demo.sumup).
Proof. intros id [q|] p s1; simpl; intros [=]; by subst. Defined.

Lemma capturePayment_twice_witness :
  (∃ t2,
     Mollie.capturePayment Demo.mollie (Demo.mollie_service (Some false))
       Demo.native_text (Demo.input_for "tr_1") (Some (Demo.payment "paid"))
     = (Ok (to_object (Demo.payment "paid")), Some (Demo.payment "paid"), t2)
     ∧ (length
         (mollie_capture_requests
            ([ Mollie.PaymentsGet (VStr "tr_1");
               Mollie.PaymentCapturesCreate (VStr "tr_1");
               Mollie.PaymentsGet (VStr "tr_1");
               Mollie.PaymentsGet (VStr "tr_1") ] ++ t2)) ≤ 1)%nat
     ∧ outcome (Mollie.getPaymentStatus Demo.mollie (Demo.input_for "tr_1")
                  (Some (Demo.payment "paid")))
       = Ok {| out_status := Mapped CAPTURED; out_data := None |}).
Proof.
  eapply (capturePayment_twice Demo.mollie (Demo.mollie_service (Some false))
            Demo.native_text Demo.sumup (Demo.input_for "tr_1")
            (Some (Demo.payment "authorized")) (Some (Demo.payment "paid"))
            None None (to_object (Demo.payment "paid")) ∅ _ []
            demo_mollie_repeatable demo_sumup_repeatable).
  reflexivity.
Defined.

(** The two calls on the concrete gateways: an authorized Mollie payment
    with manual capture, and a paid SumUp checkout. *)
Example capturePayment_twice_runs :
  let first :=
    Mollie.capturePayment Demo.mollie (Demo.mollie_service (Some false))
      Demo.native_text (Demo.input_for "tr_1")
      (Some (Demo.payment "authorized")) in
  let second :=
    Mollie.capturePayment Demo.mollie (Demo.mollie_service (Some false))
      Demo.native_text (Demo.input_for "tr_1") (final first) in
  outcome first = Ok (to_object (Demo.payment "paid"))
  ∧ outcome second = outcome first
  ∧ mollie_capture_requests (issued first ++ issued second) = [VStr "tr_1"].
Proof. repeat split; vm_compute; reflexivity. Qed.

(** C8. With [debug] on and no [amount] in the input's data, a payment
    can be [CAPTURED] after the first call while neither call returns:
    the first call captures the authorized payment, reads it back as
    captured and then throws in its debug line, which reads
    [(input.data?.amount).currency_code]; the second call finds the
    payment captured and throws in the same line. One capture request was
    issued. *)
Theorem capturePayment_twice_debug_line :
  let self := Demo.mollie_debug_service (Some false) in
  let first :=
    Mollie.capturePayment Demo.mollie self Demo.native_text
      (Demo.input_for "tr_1") (Some (Demo.payment "authorized")) in
  let second :=
    Mollie.capturePayment Demo.mollie self Demo.native_text
      (Demo.input_for "tr_1") (final first) in
  outcome first
  = Throw (mkError TypeError
             "Cannot read properties of undefined (reading 'currency_code')")
  ∧ outcome second = outcome first
  ∧ outcome (Mollie.getPaymentStatus Demo.mollie (Demo.input_for "tr_1")
               (final first))
    = Ok {| out_status := Mapped CAPTURED; out_data := None |}
  ∧ mollie_capture_requests (issued first ++ issued second) = [VStr "tr_1"].
Proof. repeat split; vm_compute; reflexivity. Qed.

End Props.

(** ** Further properties of the two adapters *)

Module More.
Import Js Eff Host HostRest Obs ObsRest Props.

(** *** Mollie: the webhook handler *)

Lemma action_of_mapStatus (status : string) :
  Mollie.action_of status = host_action (Mollie.mapStatus status).
Proof.
  unfold Mollie.action_of.
  repeat (case_decide; [by subst|]).
  unfold Mollie.mapStatus, computed_read.
  rewrite mollie_statusMap_outside.
  - by case_bool_decide.
  - unfold mollie_statuses. rewrite !not_elem_of_cons.
    repeat (split; [done|]). apply not_elem_of_nil.
Qed.

(** X1. A webhook and a poll that see the same payment agree: when the
    fetch and [new BigNumber] succeed, the action of Mollie's
    [getWebhookActionAndData] is the one that stands for the status
    [getPaymentStatus] maps that payment to, and a status outside the
    table gives [not_supported]. *)
Theorem mollie_webhook_agrees_with_poll {S} (client : Mollie.Client S)
    (new_BigNumber : JsVal → Outcome JsVal) (payload : WebhookPayload)
    (id big : JsVal) (s s1 : S) (p : Remote) :
  member (pl_data payload) "id" = Ok id →
  Mollie.payments_get client id s = (Ok p, s1) →
  new_BigNumber (prop (to_object p) "amount") = Ok big →
  ∃ result polled,
    outcome (Mollie.getWebhookActionAndData client new_BigNumber payload s)
    = Ok result
    ∧ outcome (Mollie.getPaymentStatus client (Mollie.by_id id) s)
      = Ok polled
    ∧ action result = host_action (out_status polled).
Proof.
  intros Hid Hget Hbig.
  rewrite (mollie_webhook_resolved client new_BigNumber payload id big
             s s1 p Hid Hget Hbig).
  rewrite mollie_getPaymentStatus_by_id, Hget.
  eexists _, _. split; [done|]. split; [done|].
  apply action_of_mapStatus.
Qed.

Lemma mollie_webhook_agrees_with_poll_witness :
  ∃ result polled,
    outcome (Mollie.getWebhookActionAndData Demo.mollie Demo.new_BigNumber
               (mkPayload (VObj {[ "id" := VStr "tr_1" ]}))
               (Some (Demo.payment "paid")))
    = Ok result
    ∧ outcome (Mollie.getPaymentStatus Demo.mollie
                 (Mollie.by_id (VStr "tr_1")) (Some (Demo.payment "paid")))
      = Ok polled
    ∧ action result = host_action (out_status polled).
Proof.
  apply (mollie_webhook_agrees_with_poll Demo.mollie Demo.new_BigNumber
           (mkPayload (VObj {[ "id" := VStr "tr_1" ]})) (VStr "tr_1")
           (VBigNumber (prop (to_object (Demo.payment "paid")) "amount"))
           (Some (Demo.payment "paid")) (Some (Demo.payment "paid"))
           (Demo.payment "paid"));
    reflexivity.
Defined.

(** X2. The data of a successful webhook result extends the fetched
    payment: every property of the payment is in it unchanged, its own
    [amount] included, so the [BigNumber] built from the amount is kept
    only for a payment that has no [amount]; [session_id] is the
    [idempotency_key] of the payment's metadata unless the payment has a
    [session_id] of its own. *)
Theorem mollie_webhook_data_extends_payment {S} (client : Mollie.Client S)
    (new_BigNumber : JsVal → Outcome JsVal) (payload : WebhookPayload)
    (id big : JsVal) (s s1 : S) (p : Remote) :
  member (pl_data payload) "id" = Ok id →
  Mollie.payments_get client id s = (Ok p, s1) →
  new_BigNumber (prop (to_object p) "amount") = Ok big →
  ∃ result,
    outcome (Mollie.getWebhookActionAndData client new_BigNumber payload s)
    = Ok result
    ∧ to_object p ⊆ wh_data result
    ∧ wh_data result !! "status" = Some (VStr (status p))
    ∧ (props p !! "amount" = None → wh_data result !! "amount" = Some big)
    ∧ (props p !! "session_id" = None →
       wh_data result !! "session_id"
       = Some (opt_member (prop (to_object p) "metadata")
                 "idempotency_key")).
Proof.
  intros Hid Hget Hbig.
  rewrite (mollie_webhook_resolved client new_BigNumber payload id big
             s s1 p Hid Hget Hbig).
  eexists. split; [done|]. cbn [wh_data].
  split; [apply map_union_subseteq_l|].
  split; [|split].
  - apply lookup_union_Some_l. unfold to_object. apply lookup_insert_eq.
  - intros Hnone. rewrite lookup_union_r.
    + reflexivity.
    + unfold to_object. by rewrite lookup_insert_ne.
  - intros Hnone. rewrite lookup_union_r.
    + reflexivity.
    + unfold to_object. by rewrite lookup_insert_ne.
Qed.

Lemma mollie_webhook_data_extends_payment_witness :
  ∃ result,
    outcome (Mollie.getWebhookActionAndData Demo.mollie Demo.new_BigNumber
               (mkPayload (VObj {[ "id" := VStr "tr_1" ]}))
               (Some (Demo.payment "paid")))
    = Ok result
    ∧ wh_data result !! "amount"
      = Some (VObj (list_to_map [ ("value", VStr "10.00");
                                  ("currency", VStr "EUR") ]))
    ∧ wh_data result !! "session_id" = Some (VStr "abc").
Proof.
  destruct (mollie_webhook_data_extends_payment Demo.mollie
              Demo.new_BigNumber
              (mkPayload (VObj {[ "id" := VStr "tr_1" ]})) (VStr "tr_1")
              (VBigNumber (prop (to_object (Demo.payment "paid")) "amount"))
              (Some (Demo.payment "paid")) (Some (Demo.payment "paid"))
              (Demo.payment "paid"))
    as (result & Hrun & Hsub & _ & _ & Hsession);
    [reflexivity|reflexivity|reflexivity|].
  exists result. split; [exact Hrun|]. split.
  - eapply lookup_weaken; [|exact Hsub]. reflexivity.
  - apply Hsession. reflexivity.
Defined.

(** X3. When the fetch fails twice, Mollie's webhook handler throws a
    [NOT_FOUND] error carrying the message of the first failure, after
    exactly two fetches of the payment. *)
Theorem mollie_webhook_not_found {S} (client : Mollie.Client S)
    (new_BigNumber : JsVal → Outcome JsVal) (payload : WebhookPayload)
    (id : JsVal) (s s1 s2 : S) (e e' : JsError) :
  member (pl_data payload) "id" = Ok id →
  Mollie.payments_get client id s = (Throw e, s1) →
  Mollie.payments_get client id s1 = (Throw e', s2) →
  Mollie.getWebhookActionAndData client new_BigNumber payload s
  = (Throw (mkError (MedusaError NOT_FOUND) (message e)), s2,
     [Mollie.PaymentsGet id; Mollie.PaymentsGet id]).
Proof.
  intros Hid Hget Hget'. unfold Mollie.getWebhookActionAndData.
  unfold try_catch at 1. rewrite Hid, bind_lift_ok.
  unfold bind at 1. unfold try_catch at 1.
  rewrite mollie_retrievePayment_by_id, Hget.
  unfold throw at 1. cbn iota beta. rewrite bind_lift_ok.
  unfold bind at 1. unfold try_catch at 1. unfold bind at 1.
  rewrite mollie_retrievePayment_by_id, Hget'.
  reflexivity.
Qed.

Lemma mollie_webhook_not_found_witness :
  Mollie.getWebhookActionAndData Demo.mollie Demo.new_BigNumber
    (mkPayload (VObj {[ "id" := VStr "tr_9" ]})) None
  = (Throw (mkError (MedusaError NOT_FOUND) "Not Found"), None,
     [Mollie.PaymentsGet (VStr "tr_9"); Mollie.PaymentsGet (VStr "tr_9")]).
Proof.
  apply (mollie_webhook_not_found Demo.mollie Demo.new_BigNumber
           (mkPayload (VObj {[ "id" := VStr "tr_9" ]})) (VStr "tr_9")
           None None None Demo.not_found Demo.not_found);
    reflexivity.
Defined.

(** X4. When the first fetch fails and the second succeeds, the handler
    returns the action [failed]; its [session_id] is then read from
    [metadata.session_id], not from [metadata.idempotency_key]. *)
Theorem mollie_webhook_recovers_as_failed {S} (client : Mollie.Client S)
    (new_BigNumber : JsVal → Outcome JsVal) (payload : WebhookPayload)
    (id big : JsVal) (s s1 s2 : S) (e : JsError) (p : Remote) :
  member (pl_data payload) "id" = Ok id →
  Mollie.payments_get client id s = (Throw e, s1) →
  Mollie.payments_get client id s1 = (Ok p, s2) →
  new_BigNumber (prop (to_object p) "amount") = Ok big →
  Mollie.getWebhookActionAndData client new_BigNumber payload s
  = (Ok {| action := ACT_FAILED;
           wh_data :=
             to_object p
             ∪ list_to_map
                 [ ("session_id",
                     opt_member (prop (to_object p) "metadata")
                       "session_id");
                   ("amount", big) ] |},
     s2, [Mollie.PaymentsGet id; Mollie.PaymentsGet id]).
Proof.
  intros Hid Hget Hget' Hbig. unfold Mollie.getWebhookActionAndData.
  unfold try_catch at 1. rewrite Hid, bind_lift_ok.
  unfold bind at 1. unfold try_catch at 1.
  rewrite mollie_retrievePayment_by_id, Hget.
  unfold throw at 1. cbn iota beta. rewrite bind_lift_ok.
  unfold bind at 1. unfold try_catch at 1. unfold bind at 1.
  rewrite mollie_retrievePayment_by_id, Hget'.
  unfold ret at 1. cbn iota beta.
  unfold bind, lift, ret. by rewrite Hbig.
Qed.

Lemma mollie_webhook_recovers_as_failed_witness :
  Mollie.getWebhookActionAndData DemoRest.flaky Demo.new_BigNumber
    (mkPayload (VObj {[ "id" := VStr "tr_1" ]})) (1%nat, Demo.payment "paid")
  = (Ok {| action := ACT_FAILED;
           wh_data :=
             to_object (Demo.payment "paid")
             ∪ list_to_map
                 [ ("session_id", VUndefined);
                   ("amount",
                     VBigNumber
                       (prop (to_object (Demo.payment "paid")) "amount")) ] |},
     (0%nat, Demo.payment "paid"),
     [Mollie.PaymentsGet (VStr "tr_1"); Mollie.PaymentsGet (VStr "tr_1")]).
Proof.
  apply (mollie_webhook_recovers_as_failed DemoRest.flaky Demo.new_BigNumber
           (mkPayload (VObj {[ "id" := VStr "tr_1" ]})) (VStr "tr_1")
           (VBigNumber (prop (to_object (Demo.payment "paid")) "amount"))
           (1%nat, Demo.payment "paid") (0%nat, Demo.payment "paid")
           (0%nat, Demo.payment "paid") Demo.not_found (Demo.payment "paid"));
    reflexivity.
Defined.

(** X5. A delivery whose body has no readable [id] (a body that is
    [undefined] or [null]) makes the handler throw that [TypeError]
    without any call on the gateway. *)
Theorem mollie_webhook_unreadable_body {S} (client : Mollie.Client S)
    (new_BigNumber : JsVal → Outcome JsVal) (payload : WebhookPayload)
    (s : S) (e : JsError) :
  member (pl_data payload) "id" = Throw e →
  Mollie.getWebhookActionAndData client new_BigNumber payload s
  = (Throw e, s, []).
Proof.
  intros Hid. unfold Mollie.getWebhookActionAndData.
  unfold try_catch. rewrite Hid, !bind_lift_throw. reflexivity.
Qed.

Lemma mollie_webhook_unreadable_body_witness :
  Mollie.getWebhookActionAndData Demo.mollie Demo.new_BigNumber
    (mkPayload VUndefined) (Some (Demo.payment "paid"))
  = (Throw (mkError TypeError
              "Cannot read properties of undefined (reading 'id')"),
     Some (Demo.payment "paid"), []).
Proof.
  apply (mollie_webhook_unreadable_body Demo.mollie Demo.new_BigNumber
           (mkPayload VUndefined) (Some (Demo.payment "paid"))).
  reflexivity.
Defined.

(** *** Mollie: the lifecycle operations *)

(** X6. Mollie's [authorizePayment] only reads: with an id in the input
    its one call is the fetch of that payment, and without one it throws
    ["Payment ID is required"] before any call. *)
Theorem mollie_authorizePayment_reads_only {S} (client : Mollie.Client S)
    (native_text : string → string) (input : PaymentInput) (s : S) :
  issued (Mollie.authorizePayment client native_text input s)
  = (if truthy (data_id input) then [Mollie.PaymentsGet (data_id input)]
     else [])
  ∧ (truthy (data_id input) = false →
     Mollie.authorizePayment client native_text input s
     = (Throw (mkError (MedusaError INVALID_DATA) "Payment ID is required"),
        s, [])).
Proof.
  unfold Mollie.authorizePayment.
  destruct (truthy (data_id input)); cbn [negb]; [|done].
  split; [|done]. rewrite try_catch_rethrow.
  unfold bind. rewrite mollie_getPaymentStatus_by_id.
  destruct (Mollie.payments_get client (data_id input) s) as [[p|e] s1];
    [|done].
  cbn [out_status]. by destruct (Mollie.includes _ _).
Qed.

Lemma mollie_authorizePayment_reads_only_witness :
  Mollie.authorizePayment Demo.mollie Demo.native_text
    (mkInput (Some {[ "id" := VStr "" ]})) (Some (Demo.payment "paid"))
  = (Throw (mkError (MedusaError INVALID_DATA) "Payment ID is required"),
     Some (Demo.payment "paid"), []).
Proof.
  apply (mollie_authorizePayment_reads_only Demo.mollie Demo.native_text
           (mkInput (Some {[ "id" := VStr "" ]}))
           (Some (Demo.payment "paid"))).
  reflexivity.
Defined.

(** X7. Given data in the input, Mollie's [cancelPayment] returns exactly
    when the fetch of the payment succeeds: a failed fetch is rethrown
    after that one call, and a rejected cancel call never is. *)
Theorem mollie_cancelPayment_fails_only_on_fetch {S}
    (client : Mollie.Client S) (input : PaymentInput)
    (data : gmap string JsVal) (s : S) :
  in_data input = Some data →
  ((∃ out, outcome (Mollie.cancelPayment client input s) = Ok out)
   ↔ ∃ p s1, Mollie.payments_get client (prop data "id") s = (Ok p, s1))
  ∧ (∀ e s1,
       Mollie.payments_get client (prop data "id") s = (Throw e, s1) →
       Mollie.cancelPayment client input s
       = (Throw e, s1, [Mollie.PaymentsGet (prop data "id")])).
Proof.
  intros Hdata.
  destruct (Mollie.payments_get client (prop data "id") s) as [[p|e] s1]
    eqn:Hget.
  - split; [|by intros e s1' [=]].
    split; [by eexists _, _|]. intros _.
    rewrite (mollie_cancelPayment_run client input data s s1 p Hdata Hget).
    case_decide; [by eexists|].
    destruct (Mollie.payments_cancel client (prop data "id") s1)
      as [[q|e] s2]; by eexists.
  - assert (Mollie.cancelPayment client input s
            = (Throw e, s1, [Mollie.PaymentsGet (prop data "id")])) as Hrun.
    { unfold Mollie.cancelPayment.
      rewrite Hdata, try_catch_rethrow.
      unfold bind, request. by rewrite Hget. }
    split.
    + rewrite Hrun. split; [by intros [out [=]]|by intros (p & s1' & [=])].
    + by intros e' s1' [= <- <-].
Qed.

Lemma mollie_cancelPayment_fails_only_on_fetch_witness :
  Mollie.cancelPayment Demo.mollie (Demo.input_for "tr_1") None
  = (Throw Demo.not_found, None, [Mollie.PaymentsGet (VStr "tr_1")]).
Proof.
  edestruct (mollie_cancelPayment_fails_only_on_fetch Demo.mollie
               (Demo.input_for "tr_1") {[ "id" := VStr "tr_1" ]} None)
    as [_ Hthrows]; [reflexivity|].
  apply Hthrows. reflexivity.
Defined.

(** X8. Given an amount, Mollie's [initiatePayment] hands back the
    gateway's verdict on its one create request: a rejection becomes an
    [INVALID_DATA] error with the gateway's message unchanged, and a
    created payment is returned whole, with its [id] as the output's
    [id]. *)
Theorem mollie_initiatePayment_outcome {S} (client : Mollie.Client S)
    (self : Mollie.Service) (format_amount : JsVal → string)
    (toUpperCase : string → string) (input : InitiatePaymentInput)
    (value : string) (s s1 : S) (o : Outcome Remote) :
  Mollie.amount_text format_amount (init_amount input) = Ok value →
  Mollie.payments_create client
    (Mollie.createParams self toUpperCase value input) s = (o, s1) →
  Mollie.initiatePayment client self format_amount toUpperCase input s
  = (match o with
     | Ok p => Ok {| init_id := prop (to_object p) "id";
                     init_data := to_object p |}
     | Throw e => Throw (mkError (MedusaError INVALID_DATA) (message e))
     end,
     s1,
     [Mollie.PaymentsCreate
        (Mollie.createParams self toUpperCase value input)]).
Proof.
  intros Hvalue Hcreate. unfold Mollie.initiatePayment.
  rewrite try_catch_rethrow, Hvalue, bind_lift_ok.
  unfold bind, try_catch, request, ret, throw. rewrite Hcreate.
  by destruct o.
Qed.

Lemma mollie_initiatePayment_outcome_witness :
  outcome (Mollie.initiatePayment DemoRest.flaky
             (Demo.mollie_service (Some true)) Demo.format_amount
             Demo.toUpperCase (mkInitiate VUndefined (VNum (Q2Qc 10)) "eur")
             (0%nat, Demo.payment "open"))
  = Throw (mkError (MedusaError INVALID_DATA) "Not Found").
Proof.
  unfold outcome.
  erewrite (mollie_initiatePayment_outcome DemoRest.flaky
              (Demo.mollie_service (Some true)) Demo.format_amount
              Demo.toUpperCase (mkInitiate VUndefined (VNum (Q2Qc 10)) "eur")
              "10.00" (0%nat, Demo.payment "open") _ (Throw Demo.not_found));
    reflexivity.
Defined.

(** *** Mollie: capture requests *)

Lemma is_literal_authorized (st : Looked PaymentSessionStatus) :
  Mollie.is_literal st "authorized" = true ↔ st = Mapped AUTHORIZED.
Proof.
  destruct st as [[]| |]; split; intros H;
    first [ done | by vm_compute in H | by inversion H ].
Qed.

(** X9. On any gateway, one call of Mollie's [capturePayment] issues at
    most one capture request, and none when the [autoCapture] option is
    [true] or the fetched payment is not mapped to [AUTHORIZED]. *)
Theorem mollie_capturePayment_captures_at_most_once {S}
    (client : Mollie.Client S) (self : Mollie.Service)
    (native_text : string → string) (input : PaymentInput) (s : S) :
  let captures :=
    mollie_capture_requests
      (issued (Mollie.capturePayment client self native_text input s)) in
  (length captures ≤ 1)%nat
  ∧ (Mollie.autoCapture (Mollie.options self) = Some true → captures = [])
  ∧ (∀ p s0,
       Mollie.payments_get client (data_id input) s = (Ok p, s0) →
       Mollie.mapStatus (status p) ≠ Mapped AUTHORIZED → captures = []).
Proof.
  intros captures. subst captures.
  destruct (truthy (data_id input)) eqn:Hid.
  - rewrite (mollie_capturePayment_run client self native_text input s Hid).
    cbv zeta.
    destruct (Mollie.payments_get client (data_id input) s) as [[p0|e] s0];
      [|by repeat split; simpl; try lia].
    destruct (Mollie.is_literal (Mollie.mapStatus (status p0)) "authorized")
      eqn:Hlit; cbn [andb].
    + apply is_literal_authorized in Hlit.
      destruct (Mollie.autoCapture_on self) eqn:Hauto; cbn [negb].
      * rewrite capture_finish_issued.
        repeat split; simpl; try lia; done.
      * assert (Mollie.autoCapture (Mollie.options self) ≠ Some true)
          as Hnot.
        { intros Heq. unfold Mollie.autoCapture_on in Hauto.
          by rewrite Heq in Hauto. }
        assert (∀ p s1,
                  (Ok p0, s0) = (Ok p, s1) →
                  Mollie.mapStatus (status p) ≠ Mapped AUTHORIZED → False)
          as Hsame by (by intros p s1 [= <- <-] Hne).
        destruct (Mollie.paymentCaptures_create client (data_id input) s0)
          as [[[]|e] sc].
        -- destruct (Mollie.payments_get client (data_id input) sc)
             as [[p2|e] s2]; rewrite ?capture_finish_issued;
             (split; [simpl; lia|]);
             (split; [by intros Heq|]);
             intros p s1 Heq Hne; by destruct (Hsame p s1 Heq Hne).
        -- split; [simpl; lia|]. split; [by intros Heq|].
           intros p s1 Heq Hne. by destruct (Hsame p s1 Heq Hne).
    + rewrite capture_finish_issued. repeat split; simpl; try lia; done.
  - unfold Mollie.capturePayment. rewrite Hid. cbn [negb].
    repeat split; simpl; try lia; done.
Qed.

Lemma mollie_capturePayment_captures_at_most_once_witness :
  mollie_capture_requests
    (issued (Mollie.capturePayment Demo.mollie
               (Demo.mollie_service (Some true)) Demo.native_text
               (Demo.input_for "tr_1") (Some (Demo.payment "authorized"))))
  = [].
Proof.
  apply (mollie_capturePayment_captures_at_most_once Demo.mollie
           (Demo.mollie_service (Some true)) Demo.native_text
           (Demo.input_for "tr_1") (Some (Demo.payment "authorized"))).
  reflexivity.
Defined.

(** X10. With manual capture, when the capture request on an authorized
    payment is accepted but the payment fetched afterwards is still not
    mapped to [CAPTURED], [capturePayment] throws an [INVALID_DATA] error
    that names that status; the capture request has been issued. *)
Theorem mollie_capturePayment_unconfirmed {S} (client : Mollie.Client S)
    (self : Mollie.Service) (native_text : string → string)
    (input : PaymentInput) (s s0 sc s2 : S) (p0 p2 : Remote) :
  truthy (data_id input) = true →
  Mollie.autoCapture_on self = false →
  Mollie.payments_get client (data_id input) s = (Ok p0, s0) →
  Mollie.mapStatus (status p0) = Mapped AUTHORIZED →
  Mollie.paymentCaptures_create client (data_id input) s0 = (Ok tt, sc) →
  Mollie.payments_get client (data_id input) sc = (Ok p2, s2) →
  Mollie.mapStatus (status p2) ≠ Mapped CAPTURED →
  Mollie.capturePayment client self native_text input s
  = (Throw (mkError (MedusaError INVALID_DATA)
              ("Payment is not captured: current status is "
               +:+ Mollie.render native_text
                     (Mollie.mapStatus (status p2)))),
     s2,
     [Mollie.PaymentsGet (data_id input);
      Mollie.PaymentCapturesCreate (data_id input);
      Mollie.PaymentsGet (data_id input)]).
Proof.
  intros Hid Hauto Hget0 Hauth Hcapture Hget2 Hnot.
  rewrite (mollie_capturePayment_run client self native_text input s Hid).
  cbv zeta. rewrite Hget0, Hauth, Hauto.
  change (Mollie.is_literal (Mapped AUTHORIZED) "authorized") with true.
  cbn [andb negb]. rewrite Hcapture, Hget2.
  unfold capture_finish.
  destruct (Mollie.is_literal _ "captured") eqn:Hcap; [|done].
  by apply is_literal_captured in Hcap.
Qed.

Lemma mollie_capturePayment_unconfirmed_witness :
  Mollie.capturePayment DemoRest.flaky (Demo.mollie_service (Some false))
    Demo.native_text (Demo.input_for "tr_1")
    (0%nat, Demo.payment "authorized")
  = (Throw (mkError (MedusaError INVALID_DATA)
              "Payment is not captured: current status is authorized"),
     (0%nat, Demo.payment "authorized"),
     [Mollie.PaymentsGet (VStr "tr_1");
      Mollie.PaymentCapturesCreate (VStr "tr_1");
      Mollie.PaymentsGet (VStr "tr_1")]).
Proof.
  apply (mollie_capturePayment_unconfirmed DemoRest.flaky
           (Demo.mollie_service (Some false)) Demo.native_text
           (Demo.input_for "tr_1") (0%nat, Demo.payment "authorized")
           (0%nat, Demo.payment "authorized")
           (0%nat, Demo.payment "authorized")
           (0%nat, Demo.payment "authorized")
           (Demo.payment "authorized") (Demo.payment "authorized"));
    first [ reflexivity | by vm_compute ].
Defined.

(** *** Mollie: refunds *)

Section MollieRefund.
Context {S : Type}.
Variable client : MollieRest.Client S.
Variable format_amount : JsVal → string.
Variable toUpperCase : string → string.

Lemma embed_retrievePayment (id : JsVal) (s : S) :
  MollieRest.embed (Mollie.retrievePayment (MollieRest.base client)
                      (Mollie.by_id id)) s
  = match Mollie.payments_get (MollieRest.base client) id s with
    | (o, s1) => (o, s1, [MollieRest.Base (Mollie.PaymentsGet id)])
    end.
Proof.
  unfold MollieRest.embed. rewrite mollie_retrievePayment_by_id.
  by destruct (Mollie.payments_get (MollieRest.base client) id s)
    as [o s1].
Qed.

(** X11. The refund Mollie's [refundPayment] requests is the amount
    stored with the payment session, [input.data.amount.value], in the
    currency of the fetched payment, upper-cased; the [amount] of the
    input itself, the sum the host asks to refund, is not used. The
    outcome is the gateway's answer to that one request. *)
Theorem mollie_refundPayment_request (data : gmap string JsVal)
    (requested id value : JsVal) (text currency : string) (s s1 : S)
    (p : Remote) :
  prop data "id" = id →
  truthy id = true →
  Mollie.payments_get (MollieRest.base client) id s = (Ok p, s1) →
  member (prop data "amount") "value" = Ok value →
  Mollie.amount_text format_amount value = Ok text →
  opt_member (prop (to_object p) "amount") "currency" = VStr currency →
  currency ≠ "" →
  let params : gmap string JsVal :=
    list_to_map
      [ ("paymentId", id);
        ("amount", VObj (list_to_map
           [ ("value", VStr text);
             ("currency", VStr (toUpperCase currency)) ])) ] in
  MollieRest.refundPayment client format_amount toUpperCase
    (mkRefund (Some data) requested) s
  = match MollieRest.paymentRefunds_create client params s1 with
    | (o, s2) =>
        (o, s2,
         [ MollieRest.Base (Mollie.PaymentsGet id);
           MollieRest.PaymentRefundsCreate params ])
    end.
Proof.
  intros Hprop Hid Hget Hvalue Htext Hcurrency Hnonempty params.
  unfold MollieRest.refundPayment. cbn [refund_data as_value opt_member].
  rewrite Hprop, Hid. cbn [negb]. rewrite try_catch_rethrow.
  unfold bind at 1. rewrite embed_retrievePayment, Hget.
  rewrite Hvalue, bind_lift_ok, Hcurrency.
  cbn [truthy]. rewrite bool_decide_eq_false_2 by done. cbn [negb].
  rewrite Htext, bind_lift_ok. cbn [MollieRest.upper].
  rewrite bind_lift_ok.
  unfold bind, request, ret. fold params.
  by destruct (MollieRest.paymentRefunds_create client params s1)
    as [[refund|e] s2].
Qed.

(** X12. Mollie's [refundPayment] sends no refund request when the id is
    missing (it throws before any call) and when the fetched payment has
    no currency (it throws ["Currency information is missing from payment
    data"] after the fetch). *)
Theorem mollie_refundPayment_guards (input : RefundPaymentInput)
    (s s1 : S) (p : Remote) (value : JsVal) :
  let id := opt_member (as_value (refund_data input)) "id" in
  (truthy id = false →
   MollieRest.refundPayment client format_amount toUpperCase input s
   = (Throw (mkError (MedusaError INVALID_DATA) "Payment ID is required"),
      s, []))
  ∧ (truthy id = true →
     Mollie.payments_get (MollieRest.base client) id s = (Ok p, s1) →
     member (opt_member (as_value (refund_data input)) "amount") "value"
     = Ok value →
     truthy (opt_member (prop (to_object p) "amount") "currency") = false →
     MollieRest.refundPayment client format_amount toUpperCase input s
     = (Throw (mkError (MedusaError INVALID_DATA)
                 "Currency information is missing from payment data"),
        s1, [MollieRest.Base (Mollie.PaymentsGet id)])).
Proof.
  intros id. subst id. unfold MollieRest.refundPayment. split.
  - by intros ->.
  - intros -> Hget Hvalue Hcurrency. cbn [negb].
    rewrite try_catch_rethrow.
    unfold bind at 1. rewrite embed_retrievePayment, Hget.
    rewrite Hvalue, bind_lift_ok, Hcurrency. cbn [negb].
    unfold throw. by rewrite app_nil_r.
Qed.

End MollieRefund.

Lemma mollie_refundPayment_request_witness :
  MollieRest.refundPayment DemoRest.mollie Demo.format_amount
    Demo.toUpperCase
    (mkRefund
       (Some (list_to_map
                [ ("id", VStr "tr_1");
                  ("amount", VObj {[ "value" := VNum (Q2Qc 10) ]}) ]))
       (VNum (Q2Qc 3)))
    (Some (mkRemote "paid"
             {[ "amount" := VObj {[ "currency" := VStr "eur" ]} ]}))
  = (Ok (list_to_map
           [ ("id", VStr "re_1");
             ("paymentId", VStr "tr_1");
             ("amount", VObj (list_to_map
                [ ("value", VStr "10.00"); ("currency", VStr "EUR") ])) ]),
     Some (mkRemote "paid"
             {[ "amount" := VObj {[ "currency" := VStr "eur" ]} ]}),
     [ MollieRest.Base (Mollie.PaymentsGet (VStr "tr_1"));
       MollieRest.PaymentRefundsCreate
         (list_to_map
            [ ("paymentId", VStr "tr_1");
              ("amount", VObj (list_to_map
                 [ ("value", VStr "10.00");
                   ("currency", VStr "EUR") ])) ]) ]).
Proof.
  erewrite (mollie_refundPayment_request DemoRest.mollie Demo.format_amount
              Demo.toUpperCase _ (VNum (Q2Qc 3)) (VStr "tr_1")
              (VNum (Q2Qc 10)) "10.00" "eur");
    first [ reflexivity | by vm_compute | done ].
Defined.

Lemma mollie_refundPayment_guards_witness :
  MollieRest.refundPayment DemoRest.mollie Demo.format_amount
    Demo.toUpperCase
    (mkRefund
       (Some (list_to_map
                [ ("id", VStr "tr_1");
                  ("amount", VObj {[ "value" := VNum (Q2Qc 10) ]}) ]))
       (VNum (Q2Qc 3)))
    (Some (mkRemote "paid" ∅))
  = (Throw (mkError (MedusaError INVALID_DATA)
              "Currency information is missing from payment data"),
     Some (mkRemote "paid" ∅),
     [MollieRest.Base (Mollie.PaymentsGet (VStr "tr_1"))]).
Proof.
  edestruct (mollie_refundPayment_guards DemoRest.mollie Demo.format_amount
               Demo.toUpperCase
               (mkRefund
                  (Some (list_to_map
                     [ ("id", VStr "tr_1");
                       ("amount", VObj {[ "value" := VNum (Q2Qc 10) ]}) ]))
                  (VNum (Q2Qc 3)))
               (Some (mkRemote "paid" ∅)) (Some (mkRemote "paid" ∅))
               (mkRemote "paid" ∅) (VNum (Q2Qc 10)))
    as [_ Hcurrency].
  apply Hcurrency; reflexivity.
Defined.

(** *** Options and construction *)

(** X13. The two [validateOptions] accept the same option objects, those
    in which [apiKey], [redirectUrl] and [medusaUrl] are all truthy; an
    empty string counts as missing. *)
Theorem validateOptions_agree (options : gmap string JsVal) :
  (MollieRest.validateOptions options = Ok tt
   ↔ SumUpRest.validateOptions options = Ok tt)
  ∧ (MollieRest.validateOptions options = Ok tt
     ↔ truthy (prop options "apiKey") = true
       ∧ truthy (prop options "redirectUrl") = true
       ∧ truthy (prop options "medusaUrl") = true).
Proof.
  unfold MollieRest.validateOptions, SumUpRest.validateOptions.
  destruct (truthy (prop options "apiKey")),
    (truthy (prop options "redirectUrl")),
    (truthy (prop options "medusaUrl")); simpl;
    repeat split; intros; try done; by destruct_and?.
Qed.

Lemma endsWith_slash_append (url : string) :
  MollieRest.endsWith_slash (url +:+ "/") = true.
Proof.
  induction url as [|c rest IH]; [done|].
  destruct rest; [done|]. exact IH.
Qed.

Lemma slice_off_last_append (url : string) :
  MollieRest.slice_off_last (url +:+ "/") = url.
Proof.
  induction url as [|c rest IH]; [done|].
  destruct rest; [done|].
  change (String c (MollieRest.slice_off_last (String a rest +:+ "/"))
          = String c (String a rest)).
  by rewrite IH.
Qed.

(** X14. The webhook address of a constructed Mollie service, which is
    the [webhookUrl] of every create request it sends, is the [medusaUrl]
    option without one trailing slash, followed by
    [/hooks/payment/mollie_mollie]: a [medusaUrl] given with or without
    the slash yields the same address. *)
Theorem mollie_webhookUrl_normalised (node_env : option string)
    (options : Mollie.Options) (url : string)
    (toUpperCase : string → string) (value : string)
    (input : InitiatePaymentInput) :
  MollieRest.endsWith_slash url = false →
  Mollie.medusaUrl options = url ∨ Mollie.medusaUrl options = url +:+ "/" →
  Mollie.createParams (MollieRest.constructor node_env options) toUpperCase
    value input !! "webhookUrl"
  = Some (VStr (url +:+ "/hooks/payment/mollie_mollie")).
Proof.
  intros Hplain Hurl.
  assert (MollieRest.webhookUrl_of (Mollie.medusaUrl options)
          = url +:+ "/hooks/payment/mollie_mollie") as Hwebhook.
  { unfold MollieRest.webhookUrl_of.
    destruct Hurl as [->| ->].
    - by rewrite Hplain.
    - by rewrite endsWith_slash_append, slice_off_last_append. }
  unfold Mollie.createParams.
  cbn [MollieRest.constructor Mollie.webhookUrl]. rewrite Hwebhook.
  reflexivity.
Qed.

Lemma mollie_webhookUrl_normalised_witness :
  Mollie.createParams
    (MollieRest.constructor (Some "production")
       {| Mollie.apiKey := "test_key";
          Mollie.redirectUrl := "https://shop.example/done";
          Mollie.medusaUrl := "https://api.example/";
          Mollie.autoCapture := None;
          Mollie.description := None;
          Mollie.debug_option := None |})
    Demo.toUpperCase "10.00" (mkInitiate VUndefined (VNum (Q2Qc 10)) "eur")
    !! "webhookUrl"
  = Some (VStr "https://api.example/hooks/payment/mollie_mollie").
Proof.
  apply (mollie_webhookUrl_normalised (Some "production") _
           "https://api.example").
  - reflexivity.
  - right. reflexivity.
Defined.

(** *** SumUp: statuses *)

(** X15. For a checkout whose status does not name a member inherited
    from [Object.prototype], SumUp's [authorizePayment] and
    [getPaymentStatus] report the same status. *)
Theorem sumup_authorize_agrees_with_poll {S} (client : SumUp.Client S)
    (input : PaymentInput) (s s1 : S) (c : Remote) :
  truthy (data_id input) = true →
  SumUp.getCheckout client (data_id input) s = (Ok c, s1) →
  status c ∉ object_prototype_members →
  ∃ authorized polled,
    outcome (SumUp.authorizePayment client input s) = Ok authorized
    ∧ outcome (SumUp.getPaymentStatus client input s) = Ok polled
    ∧ out_status authorized = out_status polled.
Proof.
  intros Hid Hget Hproto.
  rewrite (sumup_getPaymentStatus_resolved client input s s1 c Hid Hget).
  unfold SumUp.authorizePayment.
  rewrite try_catch_rethrow, Hid. cbn [negb].
  unfold bind, request, outcome. rewrite Hget.
  case_decide as Hpaid; [|case_decide as Hfailed]; simpl.
  - eexists _, _. split; [done|]. split; [done|]. by rewrite Hpaid.
  - eexists _, _. split; [done|]. split; [done|]. by rewrite Hfailed.
  - eexists _, _. split; [done|]. split; [done|]. cbn [out_status].
    destruct (decide (status c = "PENDING")) as [->|Hpending]; [done|].
    unfold SumUp.mapStatus.
    rewrite computed_read_outside; [done| |done].
    apply sumup_statusMap_outside. unfold sumup_statuses.
    rewrite !not_elem_of_cons. repeat (split; [done|]).
    apply not_elem_of_nil.
Qed.

Lemma sumup_authorize_agrees_with_poll_witness :
  ∃ authorized polled,
    outcome (SumUp.authorizePayment Demo.sumup (Demo.input_for "co_1")
               (Some (Demo.checkout "EXPIRED"))) = Ok authorized
    ∧ outcome (SumUp.getPaymentStatus Demo.sumup (Demo.input_for "co_1")
                 (Some (Demo.checkout "EXPIRED"))) = Ok polled
    ∧ out_status authorized = out_status polled.
Proof.
  apply (sumup_authorize_agrees_with_poll Demo.sumup (Demo.input_for "co_1")
           (Some (Demo.checkout "EXPIRED")) (Some (Demo.checkout "EXPIRED"))
           (Demo.checkout "EXPIRED"));
    first [ reflexivity | compute_done ].
Defined.

(** X16. SumUp's [capturePayment] changes nothing at the gateway: given
    an id and a fetched checkout that is not [PAID], it throws, after that
    one read, a [MedusaError] whose message names the checkout's status
    and whose [type] is [undefined], [MedusaError.Types] having no member
    [PAYMENT_CAPTURE_ERROR]. *)
Theorem sumup_capturePayment_rejects_unpaid {S} (client : SumUp.Client S)
    (input : PaymentInput) (s s1 : S) (c : Remote) :
  truthy (data_id input) = true →
  SumUp.getCheckout client (data_id input) s = (Ok c, s1) →
  status c ≠ "PAID" →
  SumUp.capturePayment client input s
  = (Throw (mkError MedusaError_of_undefined
              ("Cannot capture payment with status: " +:+ status c)),
     s1, [SumUp.GetCheckout (data_id input)]).
Proof.
  intros Hid Hget Hpaid. unfold SumUp.capturePayment.
  rewrite try_catch_rethrow, Hid. cbn [negb].
  unfold bind, request. rewrite Hget.
  rewrite bool_decide_eq_false_2 by done. cbn [negb].
  unfold throw. reflexivity.
Qed.

Lemma sumup_capturePayment_rejects_unpaid_witness :
  SumUp.capturePayment Demo.sumup (Demo.input_for "co_1")
    (Some (Demo.checkout "PENDING"))
  = (Throw (mkError MedusaError_of_undefined
              "Cannot capture payment with status: PENDING"),
     Some (Demo.checkout "PENDING"), [SumUp.GetCheckout (VStr "co_1")]).
Proof.
  apply (sumup_capturePayment_rejects_unpaid Demo.sumup
           (Demo.input_for "co_1") (Some (Demo.checkout "PENDING"))
           (Some (Demo.checkout "PENDING")) (Demo.checkout "PENDING"));
    first [ reflexivity | done ].
Defined.

(** X17. SumUp's [cancelPayment] never reads the checkout: its only call
    is one [deactivateCheckout] for the input's id, and with no id it
    makes no call at all. *)
Theorem sumup_cancelPayment_calls {S} (client : SumUp.Client S)
    (input : PaymentInput) (s : S) :
  issued (SumUp.cancelPayment client input s)
  = if truthy (data_id input)
    then [SumUp.DeactivateCheckout (data_id input)]
    else [].
Proof.
  unfold SumUp.cancelPayment. rewrite try_catch_rethrow.
  unfold bind, try_catch, request, ret, issued.
  destruct (truthy (data_id input)); [|done].
  by destruct (SumUp.deactivateCheckout client (data_id input) s)
    as [[c|e] s1].
Qed.

(** *** SumUp: retrieve and update *)

Section SumUpRestFacts.
Context {S : Type}.
Variable client : SumUpRest.Client S.
Variable new_BigNumber : JsVal → Outcome JsVal.

(** X18. SumUp's [retrievePayment] never throws. Without an id it
    returns the input's data and makes no call; when the fetch fails it
    returns the input's data unchanged; when the fetch succeeds it
    returns the input's data with [status], [amount], [currency] and
    [transactions] taken from the checkout and every other field kept. *)
Theorem sumup_retrievePayment_degrades (input : PaymentInput) (s : S) :
  (∃ out, outcome (SumUpRest.retrievePayment client input s) = Ok out)
  ∧ (truthy (data_id input) = false →
     SumUpRest.retrievePayment client input s = (Ok (in_data input), s, []))
  ∧ (∀ e s1,
       truthy (data_id input) = true →
       SumUp.getCheckout (SumUpRest.base client) (data_id input) s
       = (Throw e, s1) →
       SumUpRest.retrievePayment client input s
       = (Ok (in_data input), s1, [SumUp.GetCheckout (data_id input)]))
  ∧ (∀ c s1,
       truthy (data_id input) = true →
       SumUp.getCheckout (SumUpRest.base client) (data_id input) s
       = (Ok c, s1) →
       ∃ out,
         outcome (SumUpRest.retrievePayment client input s) = Ok (Some out)
         ∧ out !! "status" = Some (VStr (status c))
         ∧ out !! "amount" = Some (prop (to_object c) "amount")
         ∧ out !! "currency" = Some (prop (to_object c) "currency")
         ∧ out !! "transactions" = Some (prop (to_object c) "transactions")
         ∧ ∀ k, k ∉ sumup_retrieved_keys →
                out !! k = spread (in_data input) !! k).
Proof using Type.
  unfold SumUpRest.retrievePayment, try_catch, bind, request, ret, outcome.
  destruct (truthy (data_id input)); cbn [negb].
  - destruct (SumUp.getCheckout (SumUpRest.base client) (data_id input) s)
      as [[c|e] s1] eqn:Hget.
    + split; [by eexists|]. split; [done|]. split; [by intros e s1' _ [=]|].
      intros c' s1' _ [= <- <-]. eexists. split; [done|].
      split; [|split; [|split; [|split]]].
      * rewrite !lookup_insert_ne by done. apply lookup_insert_eq.
      * rewrite !lookup_insert_ne by done. apply lookup_insert_eq.
      * rewrite !lookup_insert_ne by done. apply lookup_insert_eq.
      * apply lookup_insert_eq.
      * intros k Hk. unfold sumup_retrieved_keys in Hk.
        rewrite !not_elem_of_cons in Hk.
        destruct Hk as (? & ? & ? & ? & _).
        by rewrite !lookup_insert_ne.
    + split; [by eexists|]. split; [done|].
      split; [by intros e' s1' _ [= <- <-]|]. by intros c s1' _ [=].
  - split; [by eexists|]. split; [done|].
    split; [by intros e s1 [=]|]. by intros c s1 [=].
Qed.

(** X19. SumUp's [updatePayment] never calls the gateway and never
    returns the updated data. Without an id it throws ["Checkout ID is
    required for update"]; with one it ends in [getAmountAsNumber], with
    the error of [new BigNumber] when the constructor rejects the amount
    and otherwise with the [TypeError] of calling [toNumber], a method
    the instance does not have. *)
Theorem sumup_updatePayment_never_returns (input : UpdatePaymentInput)
    (s : S) :
  SumUpRest.updatePayment (S:=S) new_BigNumber input s
  = (if truthy (opt_member (as_value (update_data input)) "id") then
       match new_BigNumber (update_amount input) with
       | Ok _ =>
           Throw (mkError TypeError
             "(intermediate value).toNumber is not a function")
       | Throw e => Throw e
       end
     else
       Throw (mkError (MedusaError INVALID_DATA)
                "Checkout ID is required for update"),
     s, []).
Proof using Type.
  unfold SumUpRest.updatePayment, SumUp.getAmountAsNumber.
  rewrite try_catch_rethrow.
  destruct (truthy (opt_member (as_value (update_data input)) "id"));
    cbn [negb]; [|done].
  destruct (new_BigNumber (update_amount input)) as [big|e];
    by rewrite bind_lift_throw.
Qed.

End SumUpRestFacts.

Lemma sumup_retrievePayment_degrades_witness :
  SumUpRest.retrievePayment DemoRest.sumup
    (mkInput (Some (list_to_map [ ("id", VStr "co_1");
                                  ("note", VStr "n") ]))) None
  = (Ok (Some (list_to_map [ ("id", VStr "co_1"); ("note", VStr "n") ])),
     None, [SumUp.GetCheckout (VStr "co_1")]).
Proof.
  edestruct (sumup_retrievePayment_degrades DemoRest.sumup
               (mkInput (Some (list_to_map [ ("id", VStr "co_1");
                                             ("note", VStr "n") ]))) None)
    as (_ & _ & Hfailed & _).
  apply (Hfailed Demo.not_found None); reflexivity.
Defined.

(** *** SumUp: refunds and the start of a checkout *)

(** X20. SumUp's [refundPayment] never asks the gateway for a refund. It
    ends in [getAmountAsNumber], its second statement, before the
    transactions in the input are looked at: with the error of
    [new BigNumber] when the constructor rejects the amount, and otherwise
    with the [TypeError] of calling [toNumber]. *)
Theorem sumup_refundPayment_never_refunds {S} (client : SumUpRest.Client S)
    (new_BigNumber : JsVal → Outcome JsVal) (input : RefundPaymentInput)
    (s : S) :
  SumUpRest.refundPayment client new_BigNumber input s
  = (match new_BigNumber (refund_amount input) with
     | Ok _ =>
         Throw (mkError TypeError
           "(intermediate value).toNumber is not a function")
     | Throw e => Throw e
     end, s, []).
Proof.
  unfold SumUpRest.refundPayment, SumUp.getAmountAsNumber.
  rewrite try_catch_rethrow.
  destruct (new_BigNumber (refund_amount input)) as [big|e];
    by rewrite bind_lift_throw.
Qed.

(** X22. SumUp's [initiatePayment] never reaches the gateway, with or
    without a merchant code in the options: it makes no call, neither
    [getMerchant] nor [createCheckout], leaves the gateway as it is and
    never returns. When [new BigNumber] accepts the amount, the error is
    the [TypeError] of calling [toNumber]. *)
Theorem sumup_initiatePayment_never_reaches_gateway {S}
    (client : SumUp.Client S) (self : SumUp.Service)
    (new_BigNumber : JsVal → Outcome JsVal) (now random : string)
    (input : InitiatePaymentInput) (s : S) :
  let run :=
    SumUp.initiatePayment client self new_BigNumber now random input s in
  issued run = []
  ∧ final run = s
  ∧ (∀ out, outcome run ≠ Ok out)
  ∧ (∀ big,
       new_BigNumber (init_amount input) = Ok big →
       outcome run
       = Throw (mkError TypeError
                  "(intermediate value).toNumber is not a function")).
Proof.
  intros run. subst run. rewrite sumup_initiatePayment_run.
  split; [done|]. split; [done|].
  destruct (new_BigNumber (init_amount input)) as [big|e]; split;
    first [ done | by intros big' [=] | by intros out [=] | idtac ].
Qed.

Lemma sumup_initiatePayment_never_reaches_gateway_witness :
  outcome (SumUp.initiatePayment DemoRest.merchantless DemoRest.unconfigured
             Demo.new_BigNumber "1" "x"
             (mkInitiate VUndefined (VNum (Q2Qc 10)) "EUR") None)
  = Throw (mkError TypeError
             "(intermediate value).toNumber is not a function").
Proof.
  edestruct (sumup_initiatePayment_never_reaches_gateway
               DemoRest.merchantless DemoRest.unconfigured
               Demo.new_BigNumber "1" "x"
               (mkInitiate VUndefined (VNum (Q2Qc 10)) "EUR") None)
    as (_ & _ & _ & Hthrows).
  apply (Hthrows (VBigNumber (VNum (Q2Qc 10)))). reflexivity.
Defined.

(** *** SumUp: the data of a webhook result *)

Lemma sumup_data_shape (amount sid : JsVal) :
  truthy sid = true ∨ sid = VStr "" →
  well_shaped (list_to_map [ ("session_id", sid); ("amount", amount) ]).
Proof.
  intros Hsid. split.
  - rewrite dom_list_to_map_L. set_solver.
  - exists sid. split; [apply lookup_insert_eq|done].
Qed.

Lemma bind_ok_inv {S Call A B} (m : @Eff.Eff S Call A)
    (k : A → @Eff.Eff S Call B) (s : S) (b : B) :
  outcome (bind m k s) = Ok b →
  ∃ a, outcome (m s) = Ok a ∧ outcome (k a (final (m s))) = Ok b.
Proof.
  unfold bind, outcome, final.
  destruct (m s) as [[[a|e] s1] t1]; simpl; [|done].
  destruct (k a s1) as [[o s2] t2] eqn:Hk; simpl.
  intros ->. exists a. by rewrite Hk.
Qed.

Lemma sumup_webhook_fields_shape {S}
    (new_BigNumber : JsVal → Outcome JsVal) (data : JsVal) (s : S)
    (fields : gmap string JsVal) :
  outcome (SumUp.webhook_fields (S:=S) new_BigNumber data s) = Ok fields →
  well_shaped fields.
Proof.
  unfold SumUp.webhook_fields. intros Hrun.
  apply bind_ok_inv in Hrun as (res & _ & Hrun).
  apply bind_ok_inv in Hrun as (ref & _ & Hrun).
  apply bind_ok_inv in Hrun as (sid & Hsid & Hrun).
  apply bind_ok_inv in Hrun as (raw & _ & Hrun).
  apply bind_ok_inv in Hrun as (amount & _ & Hrun).
  injection Hrun as <-.
  apply sumup_data_shape.
  destruct (truthy ref) eqn:Href.
  - injection Hsid as <-. by left.
  - apply bind_ok_inv in Hsid as (id & _ & Hsid).
    injection Hsid as <-. unfold or_else.
    destruct (truthy id) eqn:Hid; [by left|by right].
Qed.

Lemma sumup_webhook_try_shape {S} (new_BigNumber : JsVal → Outcome JsVal)
    (payload : WebhookPayload) (s : S) (result : WebhookActionResult) :
  outcome (SumUp.webhook_try (S:=S) new_BigNumber payload s) = Ok result →
  well_shaped (wh_data result).
Proof.
  unfold SumUp.webhook_try. intros Hrun.
  apply bind_ok_inv in Hrun as (ev & _ & Hrun).
  apply bind_ok_inv in Hrun as (fields & Hfields & Hrun).
  injection Hrun as <-.
  by apply sumup_webhook_fields_shape in Hfields.
Qed.

(** X24. Whatever the delivery, the data of a result of SumUp's
    [getWebhookActionAndData] has exactly the two keys [session_id] and
    [amount], nothing else of the body is passed on, and its
    [session_id] is a truthy value or the empty string, never
    [undefined]. *)
Theorem sumup_webhook_data_shape {S}
    (new_BigNumber : JsVal → Outcome JsVal) (payload : WebhookPayload)
    (s : S) (result : WebhookActionResult) :
  outcome (SumUp.getWebhookActionAndData (S:=S) new_BigNumber payload s)
  = Ok result →
  well_shaped (wh_data result).
Proof.
  unfold SumUp.getWebhookActionAndData. unfold try_catch at 1.
  pose proof (sumup_webhook_try_shape new_BigNumber payload s) as Htry.
  destruct (SumUp.webhook_try new_BigNumber payload s)
    as [[[r|e] s1] t1].
  - intros [= <-]. by apply Htry.
  - clear Htry. destruct (new_BigNumber zero) as [big|e0];
      [rewrite bind_lift_ok|by rewrite bind_lift_throw].
    unfold ret, outcome. simpl. intros [= <-].
    apply sumup_data_shape. by right.
Qed.

Lemma sumup_webhook_data_shape_witness :
  ∃ result,
    outcome (SumUp.getWebhookActionAndData (S:=option Remote)
               Demo.new_BigNumber
               (mkPayload (VObj {[ "resource" := VObj ∅ ]})) None)
    = Ok result
    ∧ well_shaped (wh_data result).
Proof.
  exists {| action := ACT_NOT_SUPPORTED;
            wh_data := list_to_map [ ("session_id", VStr "");
                                     ("amount", VBigNumber zero) ] |}.
  split; [reflexivity|].
  apply (sumup_webhook_data_shape (S:=option Remote) Demo.new_BigNumber
           (mkPayload (VObj {[ "resource" := VObj ∅ ]})) None
           {| action := ACT_NOT_SUPPORTED;
              wh_data := list_to_map [ ("session_id", VStr "");
                                       ("amount", VBigNumber zero) ] |}).
  reflexivity.
Defined.

(** *** The SDK-backed client's [deactivateCheckout] *)

(** X25. [SumUpClient.deactivateCheckout] never throws. When the SDK has
    no [deactivate] to call it contacts nothing, and when the SDK's call
    is rejected the rejection is dropped; in both cases it answers with a
    stand-in checkout that has the given id and the status ["EXPIRED"]. *)
Theorem sdk_deactivateCheckout_never_throws {S} (sdk : SumUpSdk.Sdk S)
    (handled : JsError → JsError) (now : string) (checkoutId : JsVal)
    (s : S) :
  let run := SumUpSdk.deactivateCheckout sdk handled now checkoutId s in
  (∃ checkout, outcome run = Ok checkout)
  ∧ (sdk = None →
     run = (Ok (SumUpSdk.mock checkoutId (VStr "EXPIRED") now), s, []))
  ∧ (∀ deactivate e s1,
       sdk = Some deactivate →
       deactivate checkoutId s = (Throw e, s1) →
       run = (Ok (SumUpSdk.mock checkoutId (VStr "EXPIRED") now), s1,
              [SumUpSdk.CheckoutsDeactivate checkoutId])).
Proof.
  intros run. subst run. unfold SumUpSdk.deactivateCheckout.
  destruct sdk as [deactivate|].
  - unfold try_catch, bind, request, lift, ret, outcome.
    destruct (deactivate checkoutId s) as [[result|e] s1] eqn:Hcall.
    + destruct (member result "id") as [id|e]; simpl.
      * destruct (member result "status") as [st|e]; simpl;
          (split; [by eexists|]); (split; [done|]);
          by intros d e' s1' [= <-]; rewrite Hcall.
      * split; [by eexists|]. split; [done|].
        by intros d e' s1' [= <-]; rewrite Hcall.
    + simpl. split; [by eexists|]. split; [done|].
      intros d e' s1' [= <-]. rewrite Hcall. by intros [= <- <-].
  - unfold try_catch, bind, ret, outcome. simpl.
    split; [by eexists|]. split; [done|]. by intros d e s1 [=].
Qed.

Lemma sdk_deactivateCheckout_never_throws_witness :
  SumUpSdk.deactivateCheckout DemoRest.failing_sdk (λ e, e)
    "2026-01-01T00:00:00.000Z" (VStr "co_1") None
  = (Ok (SumUpSdk.mock (VStr "co_1") (VStr "EXPIRED")
           "2026-01-01T00:00:00.000Z"),
     None, [SumUpSdk.CheckoutsDeactivate (VStr "co_1")]).
Proof.
  edestruct (sdk_deactivateCheckout_never_throws DemoRest.failing_sdk
               (λ e, e) "2026-01-01T00:00:00.000Z" (VStr "co_1") None)
    as (_ & _ & Hrejected).
  eapply Hrejected; reflexivity.
Defined.

End More.
